(** * d-fly vs 3mo spread: rolling hedge-ratio regression and residual statistics

    A shallow embedding of [streamlit_app(2).py].  The script is straight-line
    code over two uploaded tables; it is modelled stage by stage:

    - the alignment block (set intersection of the timestamps, [isin],
      [sort_values], the two-column [DataFrame] constructor, [dropna],
      [sort_index]);
    - the rolling loop ([df.loc[df.index >= t - DateOffset(months=3)]], the
      [min_periods] test, [np.polyfit(..., 1)]);
    - the attached columns [beta], [intercept], [predicted], [residual];
    - the metrics ([mean], [std(ddof=1)], [iloc[-1]], the z-score, [skew],
      [kurtosis(fisher=False)]).

    Floating-point numbers are idealised as exact rationals extended with the
    special values NaN and the two infinities.  Python exceptions are values of
    [exn] carried by the [Result] monad. *)

From Stdlib Require Import ZArith QArith Qminmax List Bool Lia Lqa Permutation Sorted.
Import ListNotations.
Open Scope Z_scope.

(** ** Exceptions *)

Inductive exn : Type :=
| IndexError      (* single positional indexer is out-of-bounds *)
| LinAlgError     (* SVD did not converge in Linear Least Squares *)
| ValueError      (* cannot reindex on an axis with duplicate labels *)
| TypeError.      (* expected non-empty vector for x *)

Inductive Result (A : Type) : Type :=
| Ok (a : A)
| Raise (e : exn).
Arguments Ok {A} a.
Arguments Raise {A} e.

Definition bind {A B : Type} (r : Result A) (k : A -> Result B) : Result B :=
  match r with
  | Ok a => k a
  | Raise e => Raise e
  end.

Notation "x <- r ;; k" := (bind r (fun x => k))
  (at level 61, r at next level, right associativity).

(** A [for] loop that appends one result per element and stops at the first
    exception. *)
Fixpoint for_each {A B : Type} (f : A -> Result B) (l : list A) : Result (list B) :=
  match l with
  | [] => Ok []
  | a :: l' => b <- f a ;; bs <- for_each f l' ;; Ok (b :: bs)
  end.

(** ** Timestamps

    A [pd.Timestamp] is kept in its calendar decomposition: the fields that
    [DateOffset(months=3)] works on, plus the time within the day in
    nanoseconds.  Chronological order is the lexicographic order on the
    fields. *)

Module Timestamp.

Record t : Type := mk { year : Z; month : Z; day : Z; nanos : Z }.

Definition lex (c1 c2 : comparison) : comparison :=
  match c1 with
  | Eq => c2
  | _ => c1
  end.

Definition compare (a b : t) : comparison :=
  lex (year a ?= year b)
    (lex (month a ?= month b)
       (lex (day a ?= day b) (nanos a ?= nanos b))).

Definition eqb (a b : t) : bool :=
  match compare a b with Eq => true | _ => false end.

Definition ltb (a b : t) : bool :=
  match compare a b with Lt => true | _ => false end.

Definition leb (a b : t) : bool :=
  match compare a b with Gt => false | _ => true end.

(** [df.index >= c] *)
Definition geb (a b : t) : bool := leb b a.

Definition lt (a b : t) : Prop :=
  year a < year b \/
  (year a = year b /\
   (month a < month b \/
    (month a = month b /\
     (day a < day b \/ (day a = day b /\ nanos a < nanos b))))).

Definition le (a b : t) : Prop := lt a b \/ a = b.

Definition is_leap (y : Z) : bool :=
  (y mod 4 =? 0) && (negb (y mod 100 =? 0) || (y mod 400 =? 0)).

Definition days_in_month (y m : Z) : Z :=
  if m =? 2 then (if is_leap y then 29 else 28)
  else if (m =? 4) || (m =? 6) || (m =? 9) || (m =? 11) then 30
  else 31.

(** [t - pd.DateOffset(months=k)]: the month is moved back by [k], the day of
    the month is clamped to the length of the target month, and the time of
    day is kept.  The function is total; pandas raises [ValueError] when the
    result leaves the range of dates it can represent, so the model describes
    the subtraction only where the result is a representable date (see
    [in_calendar]). *)
Definition sub_months (k : Z) (a : t) : t :=
  let idx := year a * 12 + (month a - 1) - k in
  let y := idx / 12 in
  let m := idx mod 12 + 1 in
  mk y m (Z.min (day a) (days_in_month y m)) (nanos a).

(** A timestamp that denotes a real instant. *)
Definition valid (a : t) : Prop :=
  1 <= month a <= 12 /\
  1 <= day a <= days_in_month (year a) (month a) /\
  0 <= nanos a < 86400000000000.

End Timestamp.

(** ** Floating-point values

    [float64] idealised: an exact rational, NaN, or an infinity.  NaN is how
    the script writes "undefined" ([np.nan] is appended for an under-populated
    window, and pandas reports an empty mean as NaN).  The arithmetic keeps
    its results in lowest terms ([Qred]), which changes no value and keeps the
    model executable on long columns. *)

Inductive float : Type :=
| Fin (q : Q)
| NaN
| PInf
| NInf.

Definition isnan (x : float) : bool :=
  match x with NaN => true | _ => false end.

Definition notna (x : float) : bool := negb (isnan x).

(** An infinity of the sign of [q]; NaN when [q] is zero. *)
Definition inf_of_sign (q : Q) : float :=
  match (q ?= 0)%Q with
  | Gt => PInf
  | Lt => NInf
  | Eq => NaN
  end.

Definition fneg (x : float) : float :=
  match x with
  | Fin q => Fin (- q)
  | NaN => NaN
  | PInf => NInf
  | NInf => PInf
  end.

Definition fadd (x y : float) : float :=
  match x, y with
  | NaN, _ | _, NaN => NaN
  | Fin a, Fin b => Fin (Qred (a + b))
  | PInf, NInf | NInf, PInf => NaN
  | PInf, _ | _, PInf => PInf
  | NInf, _ | _, NInf => NInf
  end.

Definition fsub (x y : float) : float := fadd x (fneg y).

Definition fmul (x y : float) : float :=
  match x, y with
  | NaN, _ | _, NaN => NaN
  | Fin a, Fin b => Fin (Qred (a * b))
  | Fin a, PInf | PInf, Fin a => inf_of_sign a
  | Fin a, NInf | NInf, Fin a => inf_of_sign (- a)
  | PInf, PInf | NInf, NInf => PInf
  | PInf, NInf | NInf, PInf => NInf
  end.

(** numpy division: a finite value over zero is an infinity (or NaN for 0/0)
    with a warning, never [ZeroDivisionError]. *)
Definition fdiv (x y : float) : float :=
  match x, y with
  | NaN, _ | _, NaN => NaN
  | Fin a, Fin b => if Qeq_bool b 0 then inf_of_sign a else Fin (Qred (a / b))
  | Fin _, _ => Fin 0
  | PInf, Fin b => if Qle_bool 0 b then PInf else NInf
  | NInf, Fin b => if Qle_bool 0 b then NInf else PInf
  | _, _ => NaN
  end.

(** Equality of floating values up to the representation of the rational;
    NaN is identified with itself here (this is a relation of the model, not
    Python's [==]). *)
Definition feqb (x y : float) : bool :=
  match x, y with
  | Fin a, Fin b => Qeq_bool a b
  | NaN, NaN | PInf, PInf | NInf, NInf => true
  | _, _ => false
  end.

Definition Qsum (l : list Q) : Q := fold_right Qplus 0%Q l.

Definition fsum (l : list float) : float := fold_right fadd (Fin 0) l.

Definition Qlen {A : Type} (l : list A) : Q := inject_Z (Z.of_nat (length l)).

(** ** Tables *)

(** A [Close] cell read from CSV: a number, or [None] for a blank/NaN cell. *)
Definition Close : Type := option Q.

(** One uploaded file: the columns ["Timestamp (UTC)"] and ["Close"], in file
    order. *)
Definition Series : Type := list (Timestamp.t * Close).

(** A row of the aligned frame [df]. *)
Record Row : Type := mkRow { idx : Timestamp.t; leg : Q; fly : Q }.

Definition DataFrame : Type := list Row.

(** ** The alignment block *)

Definition mem (t : Timestamp.t) (l : list Timestamp.t) : bool :=
  existsb (Timestamp.eqb t) l.

(** [set(a) & set(b)], kept as a list; it is only ever tested for membership. *)
Definition common (a b : list Timestamp.t) : list Timestamp.t :=
  filter (fun t => mem t b) a.

(** [s[s["Timestamp (UTC)"].isin(c)]] *)
Definition isin (c : list Timestamp.t) (s : Series) : Series :=
  filter (fun r => mem (fst r) c) s.

(** [sort_values] / [sort_index] by timestamp.  Rows of equal timestamp keep
    their relative order here; pandas sorts with quicksort, which promises no
    order among equal timestamps, so nothing below relies on that order. *)
Fixpoint insert_by {A : Type} (key : A -> Timestamp.t) (x : A) (l : list A) : list A :=
  match l with
  | [] => [x]
  | y :: l' =>
      if Timestamp.leb (key x) (key y) then x :: l else y :: insert_by key x l'
  end.

Fixpoint sort_by {A : Type} (key : A -> Timestamp.t) (l : list A) : list A :=
  match l with
  | [] => []
  | x :: l' => insert_by key x (sort_by key l')
  end.

Definition sort_values (s : Series) : Series := sort_by fst s.

Fixpoint index_equal (a b : list Timestamp.t) : bool :=
  match a, b with
  | [], [] => true
  | x :: a', y :: b' => Timestamp.eqb x y && index_equal a' b'
  | _, _ => false
  end.

Fixpoint is_unique (l : list Timestamp.t) : bool :=
  match l with
  | [] => true
  | x :: l' => negb (mem x l') && is_unique l'
  end.

(** Union of two sorted indexes as the [DataFrame] constructor builds it: a
    label that occurs in both is kept as often as in the index that repeats it
    the most. *)
Fixpoint merge_labels (a : list Timestamp.t) : list Timestamp.t -> list Timestamp.t :=
  fix inner (b : list Timestamp.t) : list Timestamp.t :=
    match a, b with
    | [], _ => b
    | _, [] => a
    | x :: a', y :: b' =>
        match Timestamp.compare x y with
        | Eq => x :: merge_labels a' b'
        | Lt => x :: merge_labels a' b
        | Gt => y :: inner b'
        end
    end.

Definition union_index (a b : list Timestamp.t) : list Timestamp.t :=
  if index_equal a b then a else merge_labels a b.

Definition lookup (t : Timestamp.t) (s : Series) : Close :=
  match find (fun r => Timestamp.eqb (fst r) t) s with
  | Some r => snd r
  | None => None
  end.

(** [Series.reindex(target)]: a series whose index already is the target is
    taken as it is; otherwise a series with repeated labels cannot be
    reindexed, and one with unique labels is looked up label by label (NaN
    where the label is absent). *)
Definition reindex (s : Series) (target : list Timestamp.t) : Result (list Close) :=
  if index_equal (map fst s) target then Ok (map snd s)
  else if is_unique (map fst s) then Ok (map (fun t => lookup t s) target)
  else Raise ValueError.

(** [.dropna()] on the two-column frame. *)
Fixpoint dropna_rows (l : list (Timestamp.t * (Close * Close))) : DataFrame :=
  match l with
  | [] => []
  | (t, (Some a, Some b)) :: l' => mkRow t a b :: dropna_rows l'
  | _ :: l' => dropna_rows l'
  end.

(** [pd.DataFrame({"leg": ..., "fly": ...})] on the two indexed columns. *)
Definition make_frame (leg_common fly_common : Series)
  : Result (list (Timestamp.t * (Close * Close))) :=
  let index := union_index (map fst leg_common) (map fst fly_common) in
  legs <- reindex leg_common index ;;
  flys <- reindex fly_common index ;;
  Ok (combine index (combine legs flys)).

Definition align (df_fly df_leg : Series) : Result DataFrame :=
  let c := common (map fst df_fly) (map fst df_leg) in
  let fly_common := sort_values (isin c df_fly) in
  let leg_common := sort_values (isin c df_leg) in
  frame <- make_frame leg_common fly_common ;;
  Ok (sort_by idx (dropna_rows frame)).

(** ** The rolling regression *)

(** [t - pd.DateOffset(months=3)] *)
Definition cutoff (t : Timestamp.t) : Timestamp.t := Timestamp.sub_months 3 t.

(** [df.loc[df.index >= (t - pd.DateOffset(months=3))]] *)
Definition window_df (df : DataFrame) (t : Timestamp.t) : DataFrame :=
  filter (fun r => Timestamp.geb (idx r) (cutoff t)) df.

(** [np.polyfit(x, y, 1)], returning [(m, b0)].

    numpy solves the least-squares problem for the column-scaled Vandermonde
    matrix with [lstsq].  When the [x] are not all equal the system has full
    rank and the solution is the ordinary least-squares line.  When they are
    all equal to some [c <> 0] the matrix has rank one, a [RankWarning] is
    issued and [lstsq] returns the solution of least norm of the scaled
    system, which is [m = mean(y) / (2c)], [b0 = mean(y) / 2].  When they are
    all zero the scaling divides a zero column by its zero norm and [lstsq]
    fails on the NaN entries.

    numpy decides the rank numerically, with the cut-off [rcond = len(x) *
    eps] on the singular values: legs that differ by less than that are
    treated as rank one as well, with a result that is not rational.  The
    model takes the rank-one branch for exactly equal legs only, so its
    fitted values are numpy's on constant and on well-conditioned windows
    (see [fit_faithful]). *)
Definition polyfit (x y : list Q) : Result (Q * Q) :=
  match x with
  | [] => Raise TypeError
  | _ :: _ =>
      let n := Qlen x in
      let sx := Qsum x in
      let sy := Qsum y in
      let sxx := Qsum (map (fun a => a * a) x) in
      let sxy := Qsum (map (fun p => fst p * snd p) (combine x y)) in
      let d := n * sxx - sx * sx in
      if Qeq_bool d 0 then
        if Qeq_bool sx 0 then Raise LinAlgError
        else Ok (sy / (2 * sx), sy / (2 * n))
      else Ok ((n * sxy - sx * sy) / d, (sy * sxx - sx * sxy) / d)
  end%Q.

(** The body of the loop for the row at [t]: the pair appended to [betas] and
    [alphas]. *)
Definition fit_row (df : DataFrame) (min_periods : Z) (t : Timestamp.t)
  : Result (float * float) :=
  let window := window_df df t in
  if Z.of_nat (length window) <? min_periods then Ok (NaN, NaN)
  else
    mb <- polyfit (map leg window) (map fly window) ;;
    Ok (Fin (Qred (fst mb)), Fin (Qred (snd mb))).

(** [for t in df.index: ...] *)
Definition rolling (df : DataFrame) (min_periods : Z) : Result (list (float * float)) :=
  for_each (fit_row df min_periods) (map idx df).

(** A row of [df] after the regression columns are attached. *)
Record Fitted : Type := mkFitted {
  row : Row;
  beta : float;
  intercept : float;
  predicted : float;
  residual : float
}.

Definition attach_row (r : Row) (mb : float * float) : Fitted :=
  let p := fadd (fmul (fst mb) (Fin (leg r))) (snd mb) in
  mkFitted r (fst mb) (snd mb) p (fsub (Fin (fly r)) p).

Definition attach (df : DataFrame) (coefs : list (float * float)) : list Fitted :=
  map (fun rc => attach_row (fst rc) (snd rc)) (combine df coefs).

Definition regress (df : DataFrame) (min_periods : Z) : Result (list Fitted) :=
  coefs <- rolling df min_periods ;;
  Ok (attach df coefs).

(** A record is undefined when its slope is NaN. *)
Definition undefined (f : Fitted) : bool := isnan (beta f).

Definition count_undefined (l : list Fitted) : nat :=
  length (filter undefined l).

(** ** Metrics *)

(** [.iloc[-1]] *)
Definition iloc_last {A : Type} (l : list A) : Result A :=
  match rev l with
  | [] => Raise IndexError
  | x :: _ => Ok x
  end.

(** [.dropna()] on one column. *)
Definition dropna (col : list float) : list float := filter notna col.

(** [np.mean]: the sum over the count; 0/0 is NaN for an empty array. *)
Definition np_mean (a : list float) : float := fdiv (fsum a) (Fin (Qlen a)).

(** pandas [Series.mean()], which skips NaN. *)
Definition pd_mean (col : list float) : float := np_mean (dropna col).

Fixpoint fpow (x : float) (k : nat) : float :=
  match k with
  | O => Fin 1
  | S k' => fmul x (fpow x k')
  end.

(** [scipy.stats.moment(a, k)]: the [k]-th central moment, dividing by [n]. *)
Definition moment (k : nat) (a : list float) : float :=
  let mu := np_mean a in
  np_mean (map (fun x => fpow (fsub x mu) k) a).

(** scipy's test for a vanishing second moment, with the machine epsilon of
    the idealised numbers taken as zero. *)
Definition is_zero (m2 : float) : bool :=
  match m2 with
  | Fin q => Qle_bool q 0
  | _ => false
  end.

(** [scipy.stats.kurtosis(a, fisher=...)] with the default [bias=True]. *)
Definition kurtosis (a : list float) (fisher : bool) : float :=
  let m2 := moment 2 a in
  let m4 := moment 4 a in
  let vals := if is_zero m2 then NaN else fdiv m4 (fmul m2 m2) in
  if fisher then fsub vals (Fin 3) else vals.

(** The dictionary appended to the history by [save_metrics]. *)
Record Metrics : Type := mkMetrics {
  mean : float;
  std : float;
  skew : float;
  kurtosis_p : float;
  z_score : float
}.

Section WithSqrt.

(** [np.sqrt] on non-negative rationals is a parameter of the model. *)
Variable sqrtQ : Q -> Q.

Definition np_sqrt (x : float) : float :=
  match x with
  | Fin q => if Qle_bool 0 q then Fin (sqrtQ q) else NaN
  | PInf => PInf
  | _ => NaN
  end.

(** pandas [Series.std(ddof=1)], which skips NaN: NaN unless more than [ddof]
    values remain. *)
Definition pd_std (col : list float) : float :=
  let a := dropna col in
  if (length a <=? 1)%nat then NaN
  else
    let avg := np_mean a in
    let sqr := map (fun x => fpow (fsub avg x) 2) a in
    np_sqrt (fdiv (fsum sqr) (Fin (Qlen a - 1))).

(** [scipy.stats.skew(a)] with the default [bias=True]. *)
Definition scipy_skew (a : list float) : float :=
  let m2 := moment 2 a in
  let m3 := moment 3 a in
  if is_zero m2 then NaN else fdiv m3 (fmul m2 (np_sqrt m2)).

(** The headline figures: [mu], [sigma], [latest] and [z_score]. *)
Definition latest_residual (col : list float) : Result float := iloc_last col.

Definition headline (col : list float) : Result float :=
  let mu := pd_mean col in
  let sigma := pd_std col in
  latest <- latest_residual col ;;
  Ok (fdiv (fsub latest mu) sigma).

(** The script from the aligned frame on, up to the saved metrics. *)
Definition summarize (df : DataFrame) (min_periods : Z) : Result Metrics :=
  tbl <- regress df min_periods ;;
  let col := map residual tbl in
  z <- headline col ;;
  _ <- iloc_last (map idx df) ;;
  let residuals := dropna col in
  let mu2 := pd_mean residuals in
  let sigma2 := pd_std residuals in
  let skw := scipy_skew residuals in
  let kurt_p := kurtosis residuals false in
  Ok (mkMetrics mu2 sigma2 skw kurt_p z).

(** The whole script on the two uploaded tables ([min_periods = 50]). *)
Definition run (df_fly df_leg : Series) : Result Metrics :=
  df <- align df_fly df_leg ;;
  summarize df 50.

End WithSqrt.

(** ** Sample inputs *)

Module Samples.

Definition hour : Z := 3600000000000.
Definition minute : Z := 60000000000.

(** The [i]-th day of 2024, for [0 <= i < 60], at midnight. *)
Definition day2024 (i : Z) : Timestamp.t :=
  if i <? 31 then Timestamp.mk 2024 1 (i + 1) 0
  else Timestamp.mk 2024 2 (i - 30) 0.

Definition upto (n : nat) : list Z := map Z.of_nat (seq 0 n).

Definition cell (z : Z) : Close := Some (inject_Z z).

(** Fifty consecutive daily bars; the fly is not a linear function of the
    leg. *)
Definition daily_leg : Series := map (fun i => (day2024 i, cell i)) (upto 50).
Definition daily_fly : Series := map (fun i => (day2024 i, cell (i * i))) (upto 50).
Definition daily_df : DataFrame :=
  map (fun i => mkRow (day2024 i) (inject_Z i) (inject_Z (i * i))) (upto 50).

(** Forty-nine daily bars, then one bar sixteen months later. *)
Definition late : Timestamp.t := Timestamp.mk 2025 6 2 0.
Definition gap_leg : Series :=
  map (fun i => (day2024 i, cell i)) (upto 49) ++ [(late, cell 49)].
Definition gap_fly : Series :=
  map (fun i => (day2024 i, cell (i * i))) (upto 49) ++ [(late, cell 2401)].
Definition gap_df : DataFrame :=
  map (fun i => mkRow (day2024 i) (inject_Z i) (inject_Z (i * i))) (upto 49)
    ++ [mkRow late 49 2401].

(** Fifty daily bars whose leg never moves. *)
Definition flat_df : DataFrame :=
  map (fun i => mkRow (day2024 i) 1 (inject_Z i)) (upto 50).

(** [fly = 2 * leg + 5] on every row: one old bar with leg 0, then fifty
    daily bars with leg 1. *)
Definition old : Timestamp.t := Timestamp.mk 2020 1 2 0.
Definition exact_df : DataFrame :=
  mkRow old 0 5 :: map (fun i => mkRow (day2024 i) 1 7) (upto 50).

(** Intraday bars: forty-eight one-minute bars on 29 February 2024 from
    02:00, then one bar on 30 May at 23:00 and one on 31 May at 01:00. *)
Definition feb29 (i : Z) : Timestamp.t :=
  Timestamp.mk 2024 2 29 (2 * hour + i * minute).
Definition may30 : Timestamp.t := Timestamp.mk 2024 5 30 (23 * hour).
Definition may31 : Timestamp.t := Timestamp.mk 2024 5 31 (1 * hour).
Definition intraday_df : DataFrame :=
  map (fun i => mkRow (feb29 i) (inject_Z i) (inject_Z (i * i))) (upto 48)
    ++ [mkRow may30 48 2304; mkRow may31 49 2401].

(** Two files with no timestamp in common. *)
Definition lone_fly : Series := [(day2024 0, cell 1)].
Definition lone_leg : Series := [(day2024 1, cell 2)].

(** Two files that both repeat a timestamp. *)
Definition twice_fly : Series := [(day2024 0, cell 1); (day2024 0, cell 2)].
Definition twice_leg : Series := [(day2024 0, cell 3); (day2024 0, cell 4)].

(** A leg file that holds one timestamp three times. *)
Definition thrice_leg : Series :=
  [(day2024 0, cell 3); (day2024 0, cell 4); (day2024 0, cell 5)].

(** The first three daily bars, and the same files in another row order. *)
Definition three_fly : Series :=
  [(day2024 0, cell 0); (day2024 1, cell 1); (day2024 2, cell 4)].
Definition three_leg : Series :=
  [(day2024 0, cell 0); (day2024 1, cell 1); (day2024 2, cell 2)].
Definition three_fly_shuffled : Series :=
  [(day2024 1, cell 1); (day2024 0, cell 0); (day2024 2, cell 4)].
Definition three_leg_shuffled : Series :=
  [(day2024 0, cell 0); (day2024 2, cell 2); (day2024 1, cell 1)].


(** Three daily bars. *)
Definition short_df : DataFrame :=
  map (fun i => mkRow (day2024 i) (inject_Z i) (inject_Z (i * i))) (upto 3).

(** A stand-in for [np.sqrt] that is exact on the squares of integers over a
    square denominator and rounds up to the next multiple of [1/den]
    elsewhere. *)
Definition sqrt_up (q : Q) : Q :=
  Z.sqrt_up (Qnum q * Zpos (Qden q)) # Qden q.

End Samples.

(** ** Properties the rolling regression is checked against *)

(** [w] holds exactly the rows of [df] stamped within the three calendar
    months that end at [t]. *)
Definition trailing_window (df : DataFrame) (t : Timestamp.t) (w : DataFrame) : Prop :=
  forall r, In r w <->
            In r df /\ Timestamp.le (cutoff t) (idx r) /\ Timestamp.le (idx r) t.

(** The defined records are a prefix of the table: past an undefined record
    every record is undefined. *)
Definition defined_prefix (tbl : list Fitted) : Prop :=
  forall i j fi fj, (i <= j)%nat ->
    nth_error tbl i = Some fi -> nth_error tbl j = Some fj ->
    undefined fi = true -> undefined fj = true.

(** The rows are stamped in strictly increasing order. *)
Definition ascending (df : DataFrame) : Prop :=
  StronglySorted (fun a b => Timestamp.lt (idx a) (idx b)) df.

(** Every row is stamped at the same time of day, in a real month. *)
Definition daily (df : DataFrame) : Prop :=
  forall r, In r df ->
    1 <= Timestamp.month (idx r) <= 12 /\
    forall r', In r' df -> Timestamp.nanos (idx r') = Timestamp.nanos (idx r).

(** Executable forms of [ascending] and [daily]. *)
Fixpoint ascendingb (df : DataFrame) : bool :=
  match df with
  | [] => true
  | r :: df' =>
      forallb (fun r' => Timestamp.ltb (idx r) (idx r')) df' && ascendingb df'
  end.

Definition dailyb (df : DataFrame) : bool :=
  match df with
  | [] => true
  | r0 :: _ =>
      forallb (fun r => (1 <=? Timestamp.month (idx r))
                        && (Timestamp.month (idx r) <=? 12)
                        && (Timestamp.nanos (idx r) =? Timestamp.nanos (idx r0))) df
  end.

(** ** Quantities of the least-squares fit *)

Definition sq (l : list Q) : list Q := map (fun a => a * a)%Q l.

(** [n * sum x^2 - (sum x)^2], the determinant of the normal equations. *)
Definition det (l : list Q) : Q := (Qlen l * Qsum (sq l) - Qsum l * Qsum l)%Q.

(** Sum of the squared distances to [a]. *)
Definition spread (a : Q) (l : list Q) : Q :=
  Qsum (map (fun x => (x - a) * (x - a))%Q l).



(** ** Quantities of the residual statistics *)

(** The most recent residual that is not NaN, if any. *)
Definition last_defined (col : list float) : option float :=
  match rev (dropna col) with
  | [] => None
  | x :: _ => Some x
  end.

(** The finite entries of a column, in order. *)
Fixpoint finite_values (col : list float) : list Q :=
  match col with
  | [] => []
  | Fin q :: col' => q :: finite_values col'
  | _ :: col' => finite_values col'
  end.

Definition qmean (l : list Q) : Q := (Qsum l / Qlen l)%Q.

Fixpoint qpow (q : Q) (k : nat) : Q :=
  match k with
  | O => 1%Q
  | S k' => (q * qpow q k')%Q
  end.

(** The [k]-th central moment of a sample, dividing by its size. *)
Definition central (k : nat) (l : list Q) : Q :=
  qmean (map (fun x => qpow (x - qmean l) k)%Q l).

(** No entry of the column is an infinity. *)
Definition no_inf (col : list float) : Prop :=
  Forall (fun x => x <> PInf /\ x <> NInf) col.

(** ** Properties of the alignment *)

(** [t] is a timestamp of [s] at which the value is not missing. *)
Definition present (s : Series) (t : Timestamp.t) : Prop :=
  exists v, In (t, Some v) s.

(** The frame built from two columns that carry the same index. *)
Definition zipped (L F : Series) : list (Timestamp.t * (Close * Close)) :=
  combine (map fst L) (combine (map snd L) (map snd F)).

(** The aligned frame that the alignment contract describes for the two
    files: the timestamps are those present in both, each row carries values
    the files hold at its timestamp, and the rows ascend strictly. *)
Definition aligned (df_fly df_leg : Series) (df : DataFrame) : Prop :=
  (forall t, In t (map idx df) <-> present df_fly t /\ present df_leg t) /\
  (forall r, In r df ->
             In (idx r, Some (fly r)) df_fly /\ In (idx r, Some (leg r)) df_leg) /\
  ascending df.

(** ** Quantities used for the further properties *)



(** ** Where the model of the fit and of the calendar is numpy's and pandas' *)




(** Every stamp of the frame is a real instant between 1700 and 2200, so
    that [t - 3 months] is a date pandas can represent. *)
Definition in_calendar (df : DataFrame) : Prop :=
  forall r, In r df ->
    Timestamp.valid (idx r) /\ 1700 <= Timestamp.year (idx r) <= 2200.

Definition in_calendarb (df : DataFrame) : bool :=
  forallb (fun r =>
             let t := idx r in
             (1 <=? Timestamp.month t) && (Timestamp.month t <=? 12)
             && (1 <=? Timestamp.day t)
             && (Timestamp.day t <=? Timestamp.days_in_month (Timestamp.year t)
                                                            (Timestamp.month t))
             && (0 <=? Timestamp.nanos t) && (Timestamp.nanos t <? 86400000000000)
             && (1700 <=? Timestamp.year t) && (Timestamp.year t <=? 2200)) df.

(** ** The grid of the fitted normal curve *)

(** [np.linspace(start, stop, num)]: [num] evenly spaced points, the step
    being [(stop - start) / (num - 1)] and the last point being set to
    [stop]. *)
Definition linspace (start stop : float) (num : nat) : list float :=
  match num with
  | O => []
  | S O => [start]
  | S div =>
      let step := fdiv (fsub stop start) (Fin (inject_Z (Z.of_nat div))) in
      map (fun i => fadd (fmul (Fin (inject_Z (Z.of_nat i))) step) start) (seq 0 div)
        ++ [stop]
  end.

(** [x = np.linspace(mu2 - 4*sigma2, mu2 + 4*sigma2, 200)] *)
Definition curve_grid (mu2 sigma2 : float) : list float :=
  linspace (fsub mu2 (fmul (Fin 4) sigma2)) (fadd mu2 (fmul (Fin 4) sigma2)) 200.

(** * Properties of the timestamp order *)

Module TimestampFacts.
Import Timestamp.

Lemma compare_lt_iff (a b : t) : compare a b = Lt <-> lt a b.
Proof.
  unfold compare, lex, lt.
  destruct (Z.compare_spec (year a) (year b));
    destruct (Z.compare_spec (month a) (month b));
    destruct (Z.compare_spec (day a) (day b));
    destruct (Z.compare_spec (nanos a) (nanos b));
    split; intros; try discriminate; try reflexivity; lia.
Qed.

Lemma compare_eq_iff (a b : t) : compare a b = Eq <-> a = b.
Proof.
  unfold compare, lex. destruct a as [y1 m1 d1 n1], b as [y2 m2 d2 n2]; simpl.
  destruct (Z.compare_spec y1 y2);
    destruct (Z.compare_spec m1 m2);
    destruct (Z.compare_spec d1 d2);
    destruct (Z.compare_spec n1 n2);
    split; intros E; try discriminate; try (inversion E; lia);
    subst; reflexivity.
Qed.

Lemma compare_gt_iff (a b : t) : compare a b = Gt <-> lt b a.
Proof.
  unfold compare, lex, lt.
  destruct (Z.compare_spec (year a) (year b));
    destruct (Z.compare_spec (month a) (month b));
    destruct (Z.compare_spec (day a) (day b));
    destruct (Z.compare_spec (nanos a) (nanos b));
    split; intros; try discriminate; try reflexivity; lia.
Qed.

Lemma lt_irrefl (a : t) : ~ lt a a.
Proof. unfold lt. lia. Qed.

Lemma lt_trans (a b c : t) : lt a b -> lt b c -> lt a c.
Proof. unfold lt. lia. Qed.

Lemma lt_total (a b : t) : lt a b \/ a = b \/ lt b a.
Proof.
  destruct (compare a b) eqn:E.
  - right; left. now apply compare_eq_iff.
  - left. now apply compare_lt_iff.
  - right; right. now apply compare_gt_iff.
Qed.

Lemma le_refl (a : t) : le a a.
Proof. now right. Qed.

Lemma le_trans (a b c : t) : le a b -> le b c -> le a c.
Proof.
  intros [H1 | ->] [H2 | ->]; unfold le; eauto using lt_trans.
Qed.

Lemma le_lt_trans (a b c : t) : le a b -> lt b c -> lt a c.
Proof. intros [H1 | ->] H2; eauto using lt_trans. Qed.

Lemma lt_not_le (a b : t) : lt a b -> ~ le b a.
Proof.
  intros H [H' | ->].
  - exact (lt_irrefl _ (lt_trans _ _ _ H H')).
  - exact (lt_irrefl _ H).
Qed.

Lemma leb_le (a b : t) : leb a b = true <-> le a b.
Proof.
  unfold leb, le. destruct (compare a b) eqn:E.
  - apply compare_eq_iff in E. tauto.
  - apply compare_lt_iff in E. tauto.
  - apply compare_gt_iff in E. split; [discriminate|].
    intros [H | ->].
    + destruct (lt_irrefl _ (lt_trans _ _ _ H E)).
    + destruct (lt_irrefl _ E).
Qed.

Lemma leb_false_lt (a b : t) : leb a b = false <-> lt b a.
Proof.
  unfold leb. destruct (compare a b) eqn:E.
  - apply compare_eq_iff in E. subst. split; [discriminate|].
    intros H; destruct (lt_irrefl _ H).
  - apply compare_lt_iff in E. split; [discriminate|].
    intros H; destruct (lt_irrefl _ (lt_trans _ _ _ H E)).
  - apply compare_gt_iff in E. tauto.
Qed.

Lemma geb_le (a b : t) : geb a b = true <-> le b a.
Proof. unfold geb. apply leb_le. Qed.

Lemma eqb_eq (a b : t) : eqb a b = true <-> a = b.
Proof.
  unfold eqb. destruct (compare a b) eqn:E.
  - apply compare_eq_iff in E. tauto.
  - split; [discriminate|]. intros ->.
    apply compare_lt_iff in E. destruct (lt_irrefl _ E).
  - split; [discriminate|]. intros ->.
    apply compare_gt_iff in E. destruct (lt_irrefl _ E).
Qed.

Lemma eq_dec (a b : t) : {a = b} + {a <> b}.
Proof.
  destruct (eqb a b) eqn:E.
  - left. now apply eqb_eq.
  - right. intros H. apply eqb_eq in H. congruence.
Qed.

End TimestampFacts.

(** * The loop and its windows *)

Module RollingFacts.
Import TimestampFacts.

Lemma for_each_length {A B : Type} (f : A -> Result B) (l : list A) (bs : list B) :
  for_each f l = Ok bs -> length bs = length l.
Proof.
  revert bs. induction l as [|a l IH]; simpl; intros bs H.
  - now inversion H.
  - destruct (f a) as [b|]; simpl in H; [|discriminate].
    destruct (for_each f l) as [bs'|]; simpl in H; [|discriminate].
    inversion H; subst. simpl. now rewrite (IH bs').
Qed.

Lemma for_each_nth {A B : Type} (f : A -> Result B) (l : list A) (bs : list B) :
  for_each f l = Ok bs ->
  forall i b, nth_error bs i = Some b ->
              exists a, nth_error l i = Some a /\ f a = Ok b.
Proof.
  revert bs. induction l as [|a l IH]; simpl; intros bs H i b Hb.
  - inversion H; subst. destruct i; discriminate.
  - destruct (f a) as [b0|] eqn:Fa; simpl in H; [|discriminate].
    destruct (for_each f l) as [bs'|]; simpl in H; [|discriminate].
    inversion H; subst. destruct i as [|i]; simpl in *.
    + inversion Hb; subst. eauto.
    + eapply IH; eauto.
Qed.

(** The window of [t] is every row stamped at or after the cut-off; nothing
    bounds it from above. *)
Lemma window_df_spec (df : DataFrame) (t : Timestamp.t) (r : Row) :
  In r (window_df df t) <-> In r df /\ Timestamp.le (cutoff t) (idx r).
Proof.
  unfold window_df. rewrite filter_In, geb_le. tauto.
Qed.

Lemma window_length_antitone (df : DataFrame) (c1 c2 : Timestamp.t) :
  Timestamp.le c1 c2 ->
  (length (filter (fun r => Timestamp.geb (idx r) c2) df)
   <= length (filter (fun r => Timestamp.geb (idx r) c1) df))%nat.
Proof.
  intros Hc. induction df as [|r df IH]; simpl; [lia|].
  destruct (Timestamp.geb (idx r) c2) eqn:E2.
  - assert (E1 : Timestamp.geb (idx r) c1 = true).
    { apply geb_le. apply geb_le in E2. eapply le_trans; eauto. }
    rewrite E1. simpl. lia.
  - destruct (Timestamp.geb (idx r) c1); simpl; lia.
Qed.

(** Moving the month back keeps the order of two stamps of the same time of
    day. *)
Lemma sub_months_monotone (k : Z) (a b : Timestamp.t) :
  1 <= Timestamp.month a <= 12 -> 1 <= Timestamp.month b <= 12 ->
  Timestamp.nanos a = Timestamp.nanos b ->
  Timestamp.le a b ->
  Timestamp.le (Timestamp.sub_months k a) (Timestamp.sub_months k b).
Proof.
  intros Ha Hb Hn [Hlt | ->]; [|apply le_refl].
  destruct a as [ya ma da na], b as [yb mb db nb]; simpl in *. subst nb.
  unfold Timestamp.lt in Hlt; simpl in Hlt.
  assert (Hidx : ya * 12 + (ma - 1) - k < yb * 12 + (mb - 1) - k \/
                 (ya = yb /\ ma = mb /\ da < db)) by lia.
  unfold Timestamp.sub_months; simpl.
  destruct Hidx as [Hidx | (-> & -> & Hd)].
  - left. unfold Timestamp.lt; simpl.
    set (ia := ya * 12 + (ma - 1) - k) in *.
    set (ib := yb * 12 + (mb - 1) - k) in *.
    clearbody ia ib.
    pose proof (Z.div_mod ia 12 ltac:(lia)).
    pose proof (Z.div_mod ib 12 ltac:(lia)).
    pose proof (Z.mod_pos_bound ia 12 ltac:(lia)).
    pose proof (Z.mod_pos_bound ib 12 ltac:(lia)).
    lia.
  - set (y := (yb * 12 + (mb - 1) - k) / 12).
    set (m := (yb * 12 + (mb - 1) - k) mod 12 + 1).
    set (D := Timestamp.days_in_month y m). clearbody D y m.
    destruct (Z.eq_dec (Z.min da D) (Z.min db D)) as [E | E].
    + right. now rewrite E.
    + left. unfold Timestamp.lt; simpl. lia.
Qed.

Lemma fit_row_undefined (df : DataFrame) (mp : Z) (t : Timestamp.t) (m b : float) :
  fit_row df mp t = Ok (m, b) ->
  isnan m = (Z.of_nat (length (window_df df t)) <? mp).
Proof.
  unfold fit_row. destruct (Z.of_nat (length (window_df df t)) <? mp).
  - intros H; now inversion H.
  - destruct (polyfit _ _) as [[m' b']|]; simpl; intros H; [|discriminate].
    now inversion H.
Qed.

Lemma attach_nth (df : DataFrame) (coefs : list (float * float)) (i : nat) (f : Fitted) :
  nth_error (attach df coefs) i = Some f ->
  exists r mb, nth_error df i = Some r /\ nth_error coefs i = Some mb /\
               f = attach_row r mb.
Proof.
  unfold attach. revert coefs i.
  induction df as [|r df IH]; intros [|mb coefs] [|i]; simpl; try discriminate.
  - intros H; inversion H; eauto.
  - intros H. destruct (IH _ _ H) as (r' & mb' & ? & ? & ?); eauto.
Qed.

(** Each record of the table comes from the loop body run at its own row. *)
Lemma regress_nth (df : DataFrame) (mp : Z) (tbl : list Fitted) (i : nat) (f : Fitted) :
  regress df mp = Ok tbl -> nth_error tbl i = Some f ->
  exists r, nth_error df i = Some r /\ row f = r /\
            fit_row df mp (idx r) = Ok (beta f, intercept f).
Proof.
  unfold regress, rolling. intros H Hf.
  destruct (for_each _ _) as [coefs|] eqn:E; simpl in H; [|discriminate].
  inversion H; subst tbl; clear H.
  destruct (attach_nth _ _ _ _ Hf) as (r & mb & Hr & Hmb & ->).
  destruct (for_each_nth _ _ _ E _ _ Hmb) as (t & Ht & Hfit).
  rewrite nth_error_map, Hr in Ht. inversion Ht; subst t.
  exists r. simpl. destruct mb; auto.
Qed.

Lemma regress_length (df : DataFrame) (mp : Z) (tbl : list Fitted) :
  regress df mp = Ok tbl -> length tbl = length df.
Proof.
  unfold regress, rolling. intros H.
  destruct (for_each _ _) as [coefs|] eqn:E; simpl in H; [|discriminate].
  inversion H; subst. apply for_each_length in E.
  unfold attach. rewrite length_map, length_combine, E, length_map. lia.
Qed.

Lemma ascending_nth (df : DataFrame) (i j : nat) (ri rj : Row) :
  ascending df -> (i <= j)%nat ->
  nth_error df i = Some ri -> nth_error df j = Some rj ->
  Timestamp.le (idx ri) (idx rj).
Proof.
  unfold ascending. intros Hs. revert i j.
  induction Hs as [|r df Hs IH Hall]; intros i j Hij Hi Hj.
  - destruct i; discriminate.
  - destruct i as [|i], j as [|j]; simpl in *; try lia.
    + inversion Hi; inversion Hj; subst. apply le_refl.
    + inversion Hi; subst. left.
      rewrite Forall_forall in Hall. apply Hall.
      eapply nth_error_In; eauto.
    + apply (IH i j); [lia | assumption | assumption].
Qed.

(** C1.  The window used for the first of fifty daily bars is not the
    trailing three-month window of that bar: the fit is performed (fifty rows
    reach [min_periods]) on a window that holds the bar of 19 February, which
    is stamped after the bar of 1 January being fitted. *)
Theorem window_admits_later_rows :
  let t := Samples.day2024 0 in
  let w := window_df Samples.daily_df t in
  (Z.of_nat (length w) <? 50) = false /\
  (exists r, In r w /\ Timestamp.lt t (idx r)) /\
  ~ trailing_window Samples.daily_df t w.
Proof.
  cbv zeta.
  assert (Hin : In (mkRow (Samples.day2024 49) (inject_Z 49) (inject_Z (49 * 49)))
                  (window_df Samples.daily_df (Samples.day2024 0))).
  { vm_compute. do 49 right. left. reflexivity. }
  assert (Hlt : Timestamp.lt (Samples.day2024 0) (Samples.day2024 49)).
  { apply compare_lt_iff. reflexivity. }
  split; [reflexivity|]. split.
  - eexists. split; [exact Hin | exact Hlt].
  - intros Hw. apply Hw in Hin. destruct Hin as (_ & _ & Hle).
    exact (lt_not_le _ _ Hlt Hle).
Qed.

(** Raising the threshold turns fitted rows into undefined ones and never the
    other way round. *)
Lemma fit_row_threshold (df : DataFrame) (p1 p2 : Z) (t : Timestamp.t) (mb : float * float) :
  p1 <= p2 -> fit_row df p1 t = Ok mb ->
  exists mb', fit_row df p2 t = Ok mb' /\
              (isnan (fst mb) = true -> isnan (fst mb') = true).
Proof.
  intros Hp. unfold fit_row.
  destruct (Z.of_nat (length (window_df df t)) <? p1) eqn:E1.
  - assert (E2 : (Z.of_nat (length (window_df df t)) <? p2) = true)
      by (apply Z.ltb_lt; apply Z.ltb_lt in E1; lia).
    rewrite E2. intros H; inversion H; subst. eexists; split; eauto.
  - destruct (Z.of_nat (length (window_df df t)) <? p2).
    + intros _. eexists; split; eauto.
    + intros H. exists mb. split; auto.
Qed.

Lemma for_each_threshold (df : DataFrame) (p1 p2 : Z) (ts : list Timestamp.t)
      (c1 : list (float * float)) :
  p1 <= p2 -> for_each (fit_row df p1) ts = Ok c1 ->
  exists c2, for_each (fit_row df p2) ts = Ok c2 /\
             Forall2 (fun a b => isnan (fst a) = true -> isnan (fst b) = true) c1 c2.
Proof.
  intros Hp. revert c1. induction ts as [|t ts IH]; simpl; intros c1 H.
  - inversion H; subst. exists []. split; auto.
  - destruct (fit_row df p1 t) as [mb|] eqn:F1; simpl in H; [|discriminate].
    destruct (for_each (fit_row df p1) ts) as [c1'|]; simpl in H; [|discriminate].
    inversion H; subst; clear H.
    destruct (fit_row_threshold _ _ _ _ _ Hp F1) as (mb' & -> & Hnan).
    destruct (IH _ eq_refl) as (c2' & -> & Hall). simpl.
    exists (mb' :: c2'). split; auto.
Qed.

Lemma undefined_attach_row (r : Row) (mb : float * float) :
  undefined (attach_row r mb) = isnan (fst mb).
Proof. reflexivity. Qed.

Lemma count_undefined_attach (df : DataFrame) (c1 c2 : list (float * float)) :
  Forall2 (fun a b => isnan (fst a) = true -> isnan (fst b) = true) c1 c2 ->
  (count_undefined (attach df c1) <= count_undefined (attach df c2))%nat.
Proof.
  intros H. revert df. unfold count_undefined, attach.
  induction H as [|a b c1 c2 Hab H IH]; intros [|r df]; simpl; try lia.
  specialize (IH df). rewrite !undefined_attach_row.
  destruct (isnan (fst a)); [rewrite Hab by reflexivity|destruct (isnan (fst b))];
    simpl; lia.
Qed.

(** C9.  For the same aligned frame, a run of the rolling regression with a
    threshold [p2] at least [p1] completes whenever the run with [p1] does,
    and it leaves at least as many rows undefined. *)
Theorem undefined_count_monotone (df : DataFrame) (p1 p2 : Z) (tbl1 : list Fitted) :
  p1 <= p2 ->
  regress df p1 = Ok tbl1 ->
  exists tbl2, regress df p2 = Ok tbl2 /\
               (count_undefined tbl1 <= count_undefined tbl2)%nat.
Proof.
  intros Hp H. unfold regress, rolling in *.
  destruct (for_each (fit_row df p1) (map idx df)) as [c1|] eqn:E1;
    simpl in H; [|discriminate].
  inversion H; subst; clear H.
  destruct (for_each_threshold _ _ _ _ _ Hp E1) as (c2 & -> & Hall). simpl.
  eexists. split; [reflexivity|]. now apply count_undefined_attach.
Qed.

Lemma undefined_count_monotone_witness :
  exists tbl2, regress Samples.gap_df 51 = Ok tbl2 /\
               (49 <= count_undefined tbl2)%nat.
Proof.
  destruct (undefined_count_monotone Samples.gap_df 50 51
              (match regress Samples.gap_df 50 with Ok l => l | Raise _ => [] end))
    as (tbl2 & H2 & Hc).
  - lia.
  - vm_compute. reflexivity.
  - exists tbl2. split; [exact H2|].
    vm_compute in H2. inversion H2; subst. vm_compute. lia.
Defined.

(** The cut-offs of two daily bars are ordered as the bars are. *)
Lemma cutoff_monotone (df : DataFrame) (r1 r2 : Row) :
  daily df -> In r1 df -> In r2 df ->
  Timestamp.le (idx r1) (idx r2) ->
  Timestamp.le (cutoff (idx r1)) (cutoff (idx r2)).
Proof.
  intros Hd H1 H2 Hle. unfold cutoff.
  destruct (Hd _ H1) as (Hm1 & Hn1). destruct (Hd _ H2) as (Hm2 & _).
  apply sub_months_monotone; auto. symmetry. now apply Hn1.
Qed.

(** The windows shrink along a daily frame. *)
Lemma window_shrinks (df : DataFrame) (r1 r2 : Row) :
  daily df -> In r1 df -> In r2 df ->
  Timestamp.le (idx r1) (idx r2) ->
  (length (window_df df (idx r2)) <= length (window_df df (idx r1)))%nat.
Proof.
  intros Hd H1 H2 Hle. unfold window_df.
  apply window_length_antitone. eapply cutoff_monotone; eauto.
Qed.

(** C10, as amended.  On an aligned frame whose bars all carry the same time
    of day, the window of a later row is never longer than that of an earlier
    row, so in the table of a completed run the defined records form a prefix
    and the undefined ones a suffix. *)
Theorem defined_rows_form_prefix (df : DataFrame) (mp : Z) (tbl : list Fitted) :
  ascending df -> daily df ->
  regress df mp = Ok tbl ->
  (forall i j ri rj, (i <= j)%nat ->
     nth_error df i = Some ri -> nth_error df j = Some rj ->
     (length (window_df df (idx rj)) <= length (window_df df (idx ri)))%nat) /\
  defined_prefix tbl.
Proof.
  intros Hasc Hd Hrun.
  assert (Hwin : forall i j ri rj, (i <= j)%nat ->
     nth_error df i = Some ri -> nth_error df j = Some rj ->
     (length (window_df df (idx rj)) <= length (window_df df (idx ri)))%nat).
  { intros i j ri rj Hij Hi Hj.
    apply (window_shrinks df ri rj Hd); eauto using nth_error_In.
    eapply ascending_nth; eauto. }
  split; [exact Hwin|].
  intros i j fi fj Hij Hi Hj Hu.
  destruct (regress_nth _ _ _ _ _ Hrun Hi) as (ri & Hri & _ & Fi).
  destruct (regress_nth _ _ _ _ _ Hrun Hj) as (rj & Hrj & _ & Fj).
  apply fit_row_undefined in Fi. apply fit_row_undefined in Fj.
  unfold undefined in *. rewrite Fi in Hu. rewrite Fj.
  specialize (Hwin i j ri rj Hij Hri Hrj).
  apply Z.ltb_lt. apply Z.ltb_lt in Hu. lia.
Qed.

Lemma ascendingb_sound (df : DataFrame) : ascendingb df = true -> ascending df.
Proof.
  unfold ascending. induction df as [|r df IH]; simpl; intros H.
  - constructor.
  - apply andb_true_iff in H. destruct H as [H1 H2].
    constructor; [now apply IH|].
    rewrite forallb_forall in H1. apply Forall_forall. intros r' Hr'.
    specialize (H1 _ Hr'). unfold Timestamp.ltb in H1.
    apply compare_lt_iff. destruct (Timestamp.compare (idx r) (idx r')); congruence.
Qed.

Lemma dailyb_sound (df : DataFrame) : dailyb df = true -> daily df.
Proof.
  destruct df as [|r0 df]; [intros _ r []|].
  unfold dailyb. rewrite forallb_forall. intros H r Hr.
  pose proof (H _ Hr) as Hr0.
  rewrite !andb_true_iff, !Z.leb_le, Z.eqb_eq in Hr0.
  split; [lia|]. intros r' Hr'. specialize (H _ Hr').
  rewrite !andb_true_iff, Z.eqb_eq in H. lia.
Qed.

Lemma defined_rows_form_prefix_witness :
  exists tbl, regress Samples.gap_df 50 = Ok tbl /\ defined_prefix tbl.
Proof.
  destruct (regress Samples.gap_df 50) as [tbl|] eqn:E;
    [|vm_compute in E; discriminate].
  exists tbl. split; [reflexivity|].
  apply (defined_rows_form_prefix Samples.gap_df 50 tbl).
  - apply ascendingb_sound. vm_compute. reflexivity.
  - apply dailyb_sound. vm_compute. reflexivity.
  - exact E.
Defined.

(** C10 fails as stated: with intraday bars the month arithmetic clamps
    30 May 23:00 and 31 May 01:00 to the same day of February, the later bar
    gets the earlier cut-off and the longer window, and the record of row 48
    is undefined while that of row 49 is defined. *)
Lemma defined_rows_not_prefix_intraday :
  exists tbl, regress Samples.intraday_df 50 = Ok tbl /\
              ascending Samples.intraday_df /\
              ~ defined_prefix tbl.
Proof.
  destruct (regress Samples.intraday_df 50) as [tbl|] eqn:E;
    [|vm_compute in E; discriminate].
  exists tbl. split; [reflexivity|]. split.
  - apply ascendingb_sound. vm_compute. reflexivity.
  - intros H.
    assert (H48 : exists f, nth_error tbl 48 = Some f /\ undefined f = true).
    { vm_compute in E. inversion E; subst. eexists. split; reflexivity. }
    assert (H49 : exists f, nth_error tbl 49 = Some f /\ undefined f = false).
    { vm_compute in E. inversion E; subst. eexists. split; reflexivity. }
    destruct H48 as (f48 & N48 & U48). destruct H49 as (f49 & N49 & U49).
    specialize (H 48%nat 49%nat f48 f49 ltac:(lia) N48 N49 U48). congruence.
Qed.

End RollingFacts.

(** * The least-squares fit *)

Module PolyfitFacts.
Local Open Scope Q_scope.

Lemma Qlen_cons {A : Type} (a : A) (l : list A) : Qlen (a :: l) == 1 + Qlen l.
Proof.
  unfold Qlen. simpl length. rewrite Nat2Z.inj_succ. unfold Z.succ.
  rewrite inject_Z_plus. ring.
Qed.

Lemma Qlen_nonneg {A : Type} (l : list A) : 0 <= Qlen l.
Proof.
  unfold Qlen. change 0 with (inject_Z 0). rewrite <- Zle_Qle. lia.
Qed.

Lemma Qlen_pos {A : Type} (a : A) (l : list A) : 0 < Qlen (a :: l).
Proof. rewrite Qlen_cons. pose proof (Qlen_nonneg l). lra. Qed.

Lemma square_nonneg (x : Q) : 0 <= x * x.
Proof. nra. Qed.

Lemma spread_expand (a : Q) (l : list Q) :
  spread a l == Qsum (sq l) - 2 * a * Qsum l + Qlen l * (a * a).
Proof.
  unfold spread, sq. induction l as [|x l IH].
  - unfold Qlen. simpl. ring.
  - rewrite Qlen_cons. simpl. rewrite IH. ring.
Qed.

Lemma spread_nonneg (a : Q) (l : list Q) : 0 <= spread a l.
Proof.
  unfold spread. induction l as [|x l IH]; simpl; [lra|].
  pose proof (square_nonneg (x - a)) as Hs. lra.
Qed.


Lemma det_cons (a : Q) (l : list Q) : det (a :: l) == det l + spread a l.
Proof.
  unfold det. rewrite spread_expand, Qlen_cons. unfold sq. simpl. ring.
Qed.

Lemma det_nonneg (l : list Q) : 0 <= det l.
Proof.
  induction l as [|a l IH].
  - unfold det, Qlen. simpl. lra.
  - rewrite det_cons. pose proof (spread_nonneg a l). lra.
Qed.




(** The fit of a window of full rank is the ordinary least-squares line. *)
Lemma polyfit_full_rank (x y : list Q) :
  x <> [] -> ~ det x == 0 ->
  polyfit x y =
    Ok ((Qlen x * Qsum (map (fun p => fst p * snd p) (combine x y)) - Qsum x * Qsum y)
          / det x,
        (Qsum y * Qsum (sq x) - Qsum x * Qsum (map (fun p => fst p * snd p) (combine x y)))
          / det x).
Proof.
  intros Hx Hd. unfold polyfit. destruct x as [|a x]; [congruence|].
  fold (sq (a :: x)). fold (det (a :: x)).
  destruct (Qeq_bool (det (a :: x)) 0) eqn:E; [|reflexivity].
  apply Qeq_bool_iff in E. contradiction.
Qed.


Lemma Qred_eq (p q : Q) : p == q -> Qred p = Qred q.
Proof. apply Qred_complete. Qed.


Lemma Qlen_map {A B : Type} (f : A -> B) (l : list A) : Qlen (map f l) = Qlen l.
Proof. unfold Qlen. now rewrite length_map. Qed.

Lemma regress_nth_attach (df : DataFrame) (mp : Z) (tbl : list Fitted) (i : nat) (f : Fitted) :
  regress df mp = Ok tbl -> nth_error tbl i = Some f ->
  f = attach_row (row f) (beta f, intercept f).
Proof.
  unfold regress. intros H Hf.
  destruct (rolling df mp) as [coefs|]; simpl in H; [|discriminate].
  inversion H; subst.
  destruct (RollingFacts.attach_nth _ _ _ _ Hf) as (r & [m b] & _ & _ & ->).
  reflexivity.
Qed.




End PolyfitFacts.

(** * The metrics *)

Module MetricsFacts.

Lemma iloc_last_nonempty {A : Type} (l : list A) :
  l <> [] -> exists x, iloc_last l = Ok x /\ rev l = x :: rev (removelast l).
Proof.
  intros H. destruct (exists_last H) as (l' & x & ->).
  unfold iloc_last. rewrite rev_app_distr, removelast_last. simpl. eauto.
Qed.

Lemma iloc_last_map {A B : Type} (f : A -> B) (l : list A) (x : A) :
  iloc_last l = Ok x -> iloc_last (map f l) = Ok (f x).
Proof.
  unfold iloc_last. rewrite <- map_rev. destruct (rev l); simpl; [discriminate|].
  intros H; now inversion H.
Qed.

Lemma iloc_last_In {A : Type} (l : list A) (x : A) : iloc_last l = Ok x -> In x l.
Proof.
  unfold iloc_last. destruct (rev l) as [|y l'] eqn:E; [discriminate|].
  intros H; inversion H; subst. apply in_rev. rewrite E. now left.
Qed.

Lemma fsub_nan_l (y : float) : fsub NaN y = NaN.
Proof. now destruct y. Qed.

Lemma fsub_nan_r (x : float) : fsub x NaN = NaN.
Proof. now destruct x. Qed.

Lemma fdiv_nan_l (y : float) : fdiv NaN y = NaN.
Proof. now destruct y. Qed.

Lemma undefined_residual (r : Row) (mb : float * float) :
  isnan (fst mb) = true -> residual (attach_row r mb) = NaN.
Proof.
  destruct mb as [m b]. simpl. destruct m; try discriminate. intros _.
  unfold attach_row. simpl. destruct b; reflexivity.
Qed.

Lemma last_defined_of_last (col : list float) (x : float) :
  iloc_last col = Ok x -> isnan x = false -> last_defined col = Some x.
Proof.
  unfold iloc_last, last_defined, dropna. intros H Hx.
  destruct (rev col) as [|y l'] eqn:E; [discriminate|]. inversion H; subst y.
  assert (Er : rev (filter notna col) = filter notna (rev col)).
  { clear. induction col as [|a col IH]; simpl; [reflexivity|].
    rewrite filter_app. simpl. destruct (notna a); simpl.
    - now rewrite IH.
    - now rewrite IH, app_nil_r. }
  rewrite Er, E. simpl. unfold notna. now rewrite Hx.
Qed.

Section WithSqrt.
Variable sqrtQ : Q -> Q.

(** C2.  Two files with no timestamp in common align to the empty frame, and
    the script then stops with [IndexError] at [df["residual"].iloc[-1]]
    instead of reporting undefined metrics. *)
Theorem no_common_timestamp_raises (df_fly df_leg : Series) :
  (forall t, In t (map fst df_fly) -> ~ In t (map fst df_leg)) ->
  align df_fly df_leg = Ok [] /\ run sqrtQ df_fly df_leg = Raise IndexError.
Proof.
  intros H.
  assert (Hc : common (map fst df_fly) (map fst df_leg) = []).
  { unfold common. induction (map fst df_fly) as [|t l IH]; simpl; [reflexivity|].
    assert (Hm : mem t (map fst df_leg) = false).
    { unfold mem. apply not_true_is_false. intros Hm. apply existsb_exists in Hm.
      destruct Hm as (t' & Hin & Heq). apply TimestampFacts.eqb_eq in Heq. subst.
      apply (H t'); [now left | assumption]. }
    rewrite Hm. apply IH. intros t' Ht'. apply H. now right. }
  assert (Hisin : forall s : Series, isin [] s = []).
  { intros s. unfold isin. induction s; simpl; auto. }
  assert (Ha : align df_fly df_leg = Ok []).
  { unfold align. rewrite Hc, !Hisin. reflexivity. }
  split; [exact Ha|]. unfold run. rewrite Ha. reflexivity.
Qed.

(** C7.  On the empty aligned frame the standard deviation is undefined and
    the z-score is not reported as undefined: taking the last residual
    raises [IndexError]. *)
Theorem zscore_raises_on_empty_frame :
  forall mp, exists tbl,
    regress [] mp = Ok tbl /\
    pd_std sqrtQ (map residual tbl) = NaN /\
    headline sqrtQ (map residual tbl) = Raise IndexError /\
    summarize sqrtQ [] mp = Raise IndexError.
Proof.
  intros mp. exists []. repeat split; reflexivity.
Qed.

(** C3, as amended.  The latest residual is the residual of the last row of
    the table, defined or not.  When that record is undefined the latest
    residual and the z-score are NaN, whatever residuals are defined before
    it; when its residual is defined it is also the most recent defined
    residual. *)
Theorem latest_is_last_row (df : DataFrame) (mp : Z) (tbl : list Fitted) :
  regress df mp = Ok tbl -> df <> [] ->
  exists f,
    iloc_last tbl = Ok f /\
    latest_residual (map residual tbl) = Ok (residual f) /\
    (undefined f = true ->
     residual f = NaN /\ headline sqrtQ (map residual tbl) = Ok NaN) /\
    (isnan (residual f) = false ->
     last_defined (map residual tbl) = Some (residual f)).
Proof.
  intros Hrun Hne.
  assert (Htbl : tbl <> []).
  { apply RollingFacts.regress_length in Hrun. destruct tbl, df; simpl in *;
      congruence. }
  destruct (iloc_last_nonempty tbl Htbl) as (f & Hlast & _).
  exists f. pose proof (iloc_last_map residual _ _ Hlast) as Hres.
  split; [exact Hlast|]. split; [exact Hres|]. split.
  - intros Hu.
    assert (Hnan : residual f = NaN).
    { pose proof (iloc_last_In _ _ Hlast) as Hin.
      destruct (In_nth_error _ _ Hin) as (i & Hi).
      rewrite (PolyfitFacts.regress_nth_attach _ _ _ _ _ Hrun Hi).
      now apply undefined_residual. }
    split; [exact Hnan|].
    unfold headline, latest_residual. rewrite Hres. simpl. rewrite Hnan.
    now rewrite fsub_nan_l, fdiv_nan_l.
  - intros Hd. now apply last_defined_of_last.
Qed.

End WithSqrt.

Lemma no_common_timestamp_raises_witness :
  run Samples.sqrt_up Samples.lone_fly Samples.lone_leg = Raise IndexError.
Proof.
  refine (proj2 (no_common_timestamp_raises Samples.sqrt_up
                   Samples.lone_fly Samples.lone_leg _)).
  intros t [<- | []] [H | []]. discriminate.
Defined.

Lemma latest_is_last_row_witness :
  exists tbl f,
    regress Samples.daily_df 50 = Ok tbl /\ iloc_last tbl = Ok f /\
    latest_residual (map residual tbl) = Ok (residual f).
Proof.
  destruct (regress Samples.daily_df 50) as [tbl|] eqn:E;
    [|vm_compute in E; discriminate].
  destruct (latest_is_last_row Samples.sqrt_up Samples.daily_df 50 tbl E)
    as (f & H1 & H2 & _).
  - discriminate.
  - exists tbl, f. auto.
Defined.

(** C3 fails as stated: after forty-nine daily bars and one bar sixteen
    months later, forty-nine residuals are defined, the last record is
    undefined, and the latest residual is NaN rather than the residual of the
    forty-ninth bar; the reported z-score is NaN. *)
Lemma latest_residual_not_last_defined :
  exists tbl q m,
    regress Samples.gap_df 50 = Ok tbl /\
    last_defined (map residual tbl) = Some (Fin q) /\
    latest_residual (map residual tbl) = Ok NaN /\
    run Samples.sqrt_up Samples.gap_fly Samples.gap_leg = Ok m /\
    z_score m = NaN.
Proof.
  destruct (regress Samples.gap_df 50) as [tbl|] eqn:E;
    [|vm_compute in E; discriminate].
  vm_compute in E. inversion E; subst; clear E.
  do 3 eexists. split; [reflexivity|].
  split; [vm_compute; reflexivity|].
  split; [vm_compute; reflexivity|].
  split; vm_compute; reflexivity.
Qed.

(** ** Moments of a finite sample *)

Local Open Scope Q_scope.
Import PolyfitFacts.

Lemma fsum_Fin (l : list Q) : fsum (map Fin l) = Fin (Qred (Qsum l)).
Proof.
  induction l as [|a l IH]; [reflexivity|].
  change (fsum (map Fin (a :: l))) with (fadd (Fin a) (fsum (map Fin l))).
  rewrite IH. cbn [fadd Qsum fold_right]. f_equal.
  apply Qred_eq. now rewrite Qred_correct.
Qed.

Lemma Qlen_zero_iff {A : Type} (a : A) (l : list A) : Qeq_bool (Qlen (a :: l)) 0 = false.
Proof.
  destruct (Qeq_bool (Qlen (a :: l)) 0) eqn:E; [|reflexivity].
  apply Qeq_bool_iff in E. pose proof (Qlen_pos a l). lra.
Qed.

Lemma np_mean_Fin (l : list Q) :
  l <> [] -> np_mean (map Fin l) = Fin (Qred (qmean l)).
Proof.
  destruct l as [|a l]; [congruence|]. intros _.
  unfold np_mean, qmean. rewrite fsum_Fin, Qlen_map. unfold fdiv.
  rewrite Qlen_zero_iff. f_equal. apply Qred_eq. now rewrite Qred_correct.
Qed.

Lemma qpow_compat (a b : Q) (k : nat) : a == b -> qpow a k == qpow b k.
Proof.
  intros H. induction k as [|k IH]; simpl; [reflexivity|]. now rewrite IH, H.
Qed.

Lemma fpow_Fin (d : Q) (k : nat) : fpow (Fin d) k = Fin (Qred (qpow d k)).
Proof.
  induction k as [|k IH]; [reflexivity|].
  cbn [fpow qpow]. rewrite IH. cbn [fmul]. f_equal.
  apply Qred_eq. now rewrite Qred_correct.
Qed.

Lemma Qsum_ext {A : Type} (f g : A -> Q) (l : list A) :
  (forall x, f x == g x) -> Qsum (map f l) == Qsum (map g l).
Proof.
  intros H. induction l as [|a l IH]; simpl; [reflexivity|]. now rewrite IH, H.
Qed.

Lemma moment_Fin (k : nat) (l : list Q) :
  l <> [] -> moment k (map Fin l) = Fin (Qred (central k l)).
Proof.
  intros Hl. unfold moment. rewrite (np_mean_Fin l Hl), map_map.
  rewrite (map_ext _ (fun q => Fin (Qred (qpow (Qred (q + - Qred (qmean l))) k)))).
  2:{ intros q. unfold fsub. simpl. apply fpow_Fin. }
  rewrite <- (map_map (fun q => Qred (qpow (Qred (q + - Qred (qmean l))) k)) Fin).
  rewrite np_mean_Fin by (destruct l; [congruence | discriminate]).
  f_equal. apply Qred_eq. unfold central, qmean at 1 3. rewrite !Qlen_map.
  rewrite (Qsum_ext _ (fun x => qpow (x - qmean l) k)); [reflexivity|].
  intros x. rewrite Qred_correct. apply qpow_compat.
  rewrite !Qred_correct. reflexivity.
Qed.

Lemma moment_nil (k : nat) : moment k [] = NaN.
Proof. reflexivity. Qed.

Lemma Qsum_nonneg (l : list Q) : Forall (fun x => 0 <= x) l -> 0 <= Qsum l.
Proof.
  induction 1 as [|x l Hx Hl IH]; simpl; lra.
Qed.

Lemma central2_nonneg (l : list Q) : 0 <= central 2 l.
Proof.
  unfold central, qmean at 1. rewrite Qlen_map.
  apply Qmult_le_0_compat.
  - apply Qsum_nonneg. apply Forall_forall. intros y Hy.
    apply in_map_iff in Hy. destruct Hy as (x & <- & _). simpl.
    pose proof (square_nonneg (x - qmean l)). lra.
  - apply Qinv_le_0_compat. apply Qlen_nonneg.
Qed.

(** The sample-level statement: scipy's kurtosis with [fisher=False] is the
    fourth central moment over the square of the second, NaN when the second
    vanishes; [fisher=True] subtracts 3 from it. *)
Lemma kurtosis_of_sample (l : list Q) :
  kurtosis (map Fin l) false =
    (if Qeq_bool (central 2 l) 0 then NaN
     else Fin (Qred (central 4 l / (central 2 l * central 2 l)))) /\
  kurtosis (map Fin l) true = fsub (kurtosis (map Fin l) false) (Fin 3).
Proof.
  split; [|reflexivity].
  destruct l as [|a l]; [reflexivity|].
  unfold kurtosis. rewrite !moment_Fin by discriminate.
  set (m2 := central 2 (a :: l)). set (m4 := central 4 (a :: l)).
  pose proof (central2_nonneg (a :: l)) as Hpos. fold m2 in Hpos.
  unfold is_zero.
  destruct (Qeq_bool m2 0) eqn:E.
  - apply Qeq_bool_iff in E.
    assert (Hle : Qle_bool (Qred m2) 0 = true).
    { apply Qle_bool_iff. rewrite Qred_correct. lra. }
    now rewrite Hle.
  - apply Qeq_bool_neq in E.
    assert (Hle : Qle_bool (Qred m2) 0 = false).
    { apply not_true_is_false. intros H. apply Qle_bool_iff in H.
      rewrite Qred_correct in H. apply E. lra. }
    rewrite Hle. cbn [fmul fdiv].
    assert (Hz : Qeq_bool (Qred (Qred m2 * Qred m2)) 0 = false).
    { apply not_true_is_false. intros H. apply Qeq_bool_iff in H.
      rewrite !Qred_correct in H. apply Qmult_integral in H. tauto. }
    rewrite Hz. f_equal. apply Qred_eq. now rewrite !Qred_correct.
Qed.

Lemma dropna_finite_values (col : list float) :
  no_inf col -> dropna col = map Fin (finite_values col).
Proof.
  unfold no_inf, dropna. induction 1 as [|x col [Hp Hn] _ IH]; [reflexivity|].
  destruct x; simpl; congruence.
Qed.

Lemma fit_row_shape (df : DataFrame) (mp : Z) (t : Timestamp.t) (m b : float) :
  fit_row df mp t = Ok (m, b) ->
  (m = NaN /\ b = NaN) \/ (exists qm qb, m = Fin qm /\ b = Fin qb).
Proof.
  unfold fit_row. destruct (_ <? _)%Z.
  - intros H; inversion H; auto.
  - destruct (polyfit _ _) as [[qm qb]|]; simpl; intros H; inversion H; eauto.
Qed.

(** The residual column of a completed run holds rationals and NaN only. *)
Lemma residual_column_no_inf (df : DataFrame) (mp : Z) (tbl : list Fitted) :
  regress df mp = Ok tbl -> no_inf (map residual tbl).
Proof.
  intros Hrun. unfold no_inf. apply Forall_forall. intros x Hx.
  apply in_map_iff in Hx. destruct Hx as (f & <- & Hf).
  destruct (In_nth_error _ _ Hf) as (i & Hi).
  destruct (RollingFacts.regress_nth _ _ _ _ _ Hrun Hi) as (r & _ & _ & Hfit).
  rewrite (regress_nth_attach _ _ _ _ _ Hrun Hi).
  destruct (fit_row_shape _ _ _ _ _ Hfit) as [[-> ->] | (qm & qb & -> & ->)];
    simpl; split; discriminate.
Qed.

Section Reported.
Variable sqrtQ : Q -> Q.

Lemma summarize_inv (df : DataFrame) (mp : Z) (m : Metrics) :
  summarize sqrtQ df mp = Ok m ->
  exists tbl z,
    regress df mp = Ok tbl /\
    headline sqrtQ (map residual tbl) = Ok z /\
    m = mkMetrics (pd_mean (dropna (map residual tbl)))
                  (pd_std sqrtQ (dropna (map residual tbl)))
                  (scipy_skew sqrtQ (dropna (map residual tbl)))
                  (kurtosis (dropna (map residual tbl)) false) z.
Proof.
  unfold summarize.
  destruct (regress df mp) as [tbl|] eqn:Hrun; simpl; [|discriminate].
  destruct (headline sqrtQ (map residual tbl)) as [z|] eqn:Hz; simpl; [|discriminate].
  destruct (iloc_last (map idx df)); simpl; [|discriminate].
  intros H; inversion H as [Hm]. exists tbl, z. repeat split. exact Hz.
Qed.

(** C8.  The kurtosis reported by a completed run is the raw fourth
    standardized moment of the finite residuals: their fourth central moment
    over the square of their second central moment (the variance dividing by
    the sample size), with nothing subtracted; it is NaN when that variance
    is zero.  The Fisher form of the same sample is this value minus 3. *)
Theorem kurtosis_is_raw_fourth_moment (df : DataFrame) (mp : Z) (m : Metrics) :
  summarize sqrtQ df mp = Ok m ->
  exists tbl,
    regress df mp = Ok tbl /\
    let R := finite_values (map residual tbl) in
    kurtosis_p m =
      (if Qeq_bool (central 2 R) 0 then NaN
       else Fin (Qred (central 4 R / (central 2 R * central 2 R)))) /\
    kurtosis (map Fin R) true = fsub (kurtosis_p m) (Fin 3).
Proof.
  intros H. destruct (summarize_inv _ _ _ H) as (tbl & z & Hrun & _ & ->).
  exists tbl. split; [exact Hrun|]. cbv zeta. simpl kurtosis_p.
  rewrite (dropna_finite_values _ (residual_column_no_inf _ _ _ Hrun)).
  apply kurtosis_of_sample.
Qed.

End Reported.

Lemma kurtosis_is_raw_fourth_moment_witness :
  exists m, run Samples.sqrt_up Samples.daily_fly Samples.daily_leg = Ok m /\
            kurtosis_p m = Fin (92375 # 43316).
Proof.
  destruct (summarize Samples.sqrt_up Samples.daily_df 50) as [m|] eqn:E;
    [|vm_compute in E; discriminate].
  destruct (kurtosis_is_raw_fourth_moment Samples.sqrt_up Samples.daily_df 50 m E)
    as (tbl & Hrun & Hk & _).
  exists m. split.
  - transitivity (summarize Samples.sqrt_up Samples.daily_df 50);
      [vm_compute; reflexivity | exact E].
  - vm_compute in E. inversion E. reflexivity.
Defined.

(** ** The z-score on a non-empty frame *)




Section ZScore.
Variable sqrtQ : Q -> Q.
Hypothesis sqrtQ_zero : forall q, 0 <= q -> sqrtQ q == 0 -> q == 0.



End ZScore.



End MetricsFacts.

(** * The alignment block *)

Module AlignFacts.
Import TimestampFacts.

Lemma mem_In (t : Timestamp.t) (l : list Timestamp.t) : mem t l = true <-> In t l.
Proof.
  unfold mem. rewrite existsb_exists. split.
  - intros (t' & Hin & Heq). apply eqb_eq in Heq. now subst.
  - intros Hin. exists t. split; [assumption | now apply eqb_eq].
Qed.

Lemma common_In (a b : list Timestamp.t) (t : Timestamp.t) :
  In t (common a b) <-> In t a /\ In t b.
Proof. unfold common. now rewrite filter_In, mem_In. Qed.

Lemma isin_In (c : list Timestamp.t) (s : Series) (r : Timestamp.t * Close) :
  In r (isin c s) <-> In r s /\ In (fst r) c.
Proof. unfold isin. now rewrite filter_In, mem_In. Qed.

Section Sorting.
Context {A : Type} (key : A -> Timestamp.t).

Let key_le (a b : A) : Prop := Timestamp.le (key a) (key b).
Let key_lt (a b : A) : Prop := Timestamp.lt (key a) (key b).

Lemma insert_by_perm (x : A) (l : list A) : Permutation (insert_by key x l) (x :: l).
Proof.
  induction l as [|y l IH]; simpl; [reflexivity|].
  destruct (Timestamp.leb (key x) (key y)); [reflexivity|].
  rewrite IH. apply perm_swap.
Qed.

Lemma sort_by_perm (l : list A) : Permutation (sort_by key l) l.
Proof.
  induction l as [|x l IH]; simpl; [reflexivity|].
  rewrite insert_by_perm. now constructor.
Qed.

Lemma insert_by_sorted (x : A) (l : list A) :
  StronglySorted key_le l -> StronglySorted key_le (insert_by key x l).
Proof.
  induction 1 as [|y l Hs IH Hall]; simpl.
  - repeat constructor.
  - destruct (Timestamp.leb (key x) (key y)) eqn:E.
    + apply leb_le in E. constructor; [now constructor|].
      constructor; [exact E|].
      rewrite Forall_forall in *. intros z Hz.
      unfold key_le in *. eapply le_trans; eauto.
    + apply leb_false_lt in E. constructor; [exact IH|].
      apply (Permutation_Forall (x := x :: l)).
      * symmetry. apply insert_by_perm.
      * constructor; [now left | exact Hall].
Qed.

Lemma sort_by_sorted (l : list A) : StronglySorted key_le (sort_by key l).
Proof.
  induction l as [|x l IH]; simpl; [constructor | now apply insert_by_sorted].
Qed.

Lemma sorted_strict (l : list A) :
  StronglySorted key_le l -> NoDup (map key l) -> StronglySorted key_lt l.
Proof.
  induction 1 as [|x l Hs IH Hall]; simpl; intros Hnd; [constructor|].
  inversion Hnd as [|? ? Hnotin Hnd']; subst.
  constructor; [now apply IH|].
  rewrite Forall_forall in *. intros y Hy.
  destruct (Hall y Hy) as [Hlt | Heq]; [exact Hlt|].
  exfalso. apply Hnotin. rewrite Heq. now apply in_map.
Qed.

Lemma sort_by_fixed (l : list A) : StronglySorted key_lt l -> sort_by key l = l.
Proof.
  induction 1 as [|x l Hs IH Hall]; simpl; [reflexivity|].
  rewrite IH. destruct l as [|y l]; [reflexivity|]. simpl.
  inversion Hall as [|? ? Hxy _]; subst.
  assert (E : Timestamp.leb (key x) (key y) = true) by (apply leb_le; now left).
  now rewrite E.
Qed.

Lemma sorted_keys (l : list A) :
  StronglySorted key_lt l -> StronglySorted Timestamp.lt (map key l).
Proof.
  induction 1 as [|x l Hs IH Hall]; simpl; constructor; [exact IH|].
  rewrite Forall_forall in *. intros t Ht.
  apply in_map_iff in Ht. destruct Ht as (y & <- & Hy). now apply Hall.
Qed.

Lemma NoDup_map_filter (p : A -> bool) (l : list A) :
  NoDup (map key l) -> NoDup (map key (filter p l)).
Proof.
  induction l as [|x l IH]; simpl; intros H; [constructor|].
  inversion H as [|? ? Hnotin Hnd]; subst.
  destruct (p x); simpl; [constructor|]; auto.
  intros Hin. apply Hnotin. apply in_map_iff in Hin.
  destruct Hin as (y & Hy & Hin). apply filter_In in Hin.
  rewrite <- Hy. apply in_map. tauto.
Qed.

(** Sorting a table with unique stamps gives strictly ascending stamps. *)
Lemma sort_by_strict (l : list A) :
  NoDup (map key l) -> StronglySorted Timestamp.lt (map key (sort_by key l)).
Proof.
  intros Hnd. apply sorted_keys. apply sorted_strict.
  - apply sort_by_sorted.
  - eapply Permutation_NoDup; [|exact Hnd].
    apply Permutation_map. symmetry. apply sort_by_perm.
Qed.

End Sorting.

(** A strictly ascending index is determined by its set of labels. *)
Lemma sorted_unique (l1 l2 : list Timestamp.t) :
  StronglySorted Timestamp.lt l1 -> StronglySorted Timestamp.lt l2 ->
  (forall t, In t l1 <-> In t l2) -> l1 = l2.
Proof.
  intros H1. revert l2. induction H1 as [|a l1 Hs1 IH Hall1]; intros l2 H2 Hin.
  - destruct l2 as [|b l2]; [reflexivity|].
    destruct (proj2 (Hin b) (or_introl eq_refl)).
  - destruct l2 as [|b l2].
    { destruct (proj1 (Hin a) (or_introl eq_refl)). }
    inversion H2 as [|? ? Hs2 Hall2]; subst.
    rewrite Forall_forall in Hall1, Hall2.
    assert (Hab : a = b).
    { destruct (proj1 (Hin a) (or_introl eq_refl)) as [Hba | Ha]; [now symmetry|].
      destruct (proj2 (Hin b) (or_introl eq_refl)) as [Hab | Hb]; [assumption|].
      exfalso. apply (lt_irrefl a).
      eapply lt_trans; [apply Hall1, Hb | apply Hall2, Ha]. }
    subst b. f_equal. apply IH; [exact Hs2|].
    intros t. split; intros Ht.
    + destruct (proj1 (Hin t) (or_intror Ht)) as [<- | Ht']; [|exact Ht'].
      destruct (lt_irrefl _ (Hall1 _ Ht)).
    + destruct (proj2 (Hin t) (or_intror Ht)) as [<- | Ht']; [|exact Ht'].
      destruct (lt_irrefl _ (Hall2 _ Ht)).
Qed.

Lemma index_equal_refl (l : list Timestamp.t) : index_equal l l = true.
Proof.
  induction l as [|t l IH]; simpl; [reflexivity|].
  rewrite IH, andb_true_r. now apply eqb_eq.
Qed.

Lemma zipped_sound (L F : Series) (r : Row) :
  map fst L = map fst F ->
  In r (dropna_rows (zipped L F)) ->
  In (idx r, Some (leg r)) L /\ In (idx r, Some (fly r)) F.
Proof.
  unfold zipped. revert F.
  induction L as [|[k a] L IH]; intros [|[k' b] F] Hk Hin;
    simpl in *; try contradiction; try discriminate.
  injection Hk as -> Hk.
  destruct a as [a|], b as [b|]; simpl in Hin;
    try (destruct (IH F Hk Hin); tauto).
  destruct Hin as [<- | Hin]; [simpl; auto|].
  destruct (IH F Hk Hin); tauto.
Qed.

Lemma zipped_complete (L F : Series) (t : Timestamp.t) (a b : Q) :
  map fst L = map fst F -> NoDup (map fst L) ->
  In (t, Some a) L -> In (t, Some b) F ->
  In (mkRow t a b) (dropna_rows (zipped L F)).
Proof.
  unfold zipped. revert F.
  induction L as [|[k x] L IH]; intros [|[k' y] F] Hk Hnd HL HF;
    simpl in *; try contradiction; try discriminate.
  injection Hk as -> Hk.
  inversion Hnd as [|? ? Hnotin Hnd']; subst.
  assert (Hstep : In (t, Some a) L -> In (t, Some b) F ->
                  In (mkRow t a b)
                     (dropna_rows (combine (map fst L)
                                     (combine (map snd L) (map snd F))))).
  { intros; now apply IH. }
  destruct HL as [HL | HL], HF as [HF | HF].
  - inversion HL; inversion HF; subst. simpl. now left.
  - inversion HL; subst. exfalso. apply Hnotin. rewrite Hk.
    change t with (fst (t, Some b)). now apply in_map.
  - inversion HF; subst. exfalso. apply Hnotin.
    change t with (fst (t, Some a)). now apply in_map.
  - destruct x, y; simpl; auto.
Qed.

Lemma zipped_ascending (L F : Series) :
  map fst L = map fst F -> StronglySorted Timestamp.lt (map fst L) ->
  ascending (dropna_rows (zipped L F)).
Proof.
  unfold ascending. revert F.
  induction L as [|[k x] L IH]; intros [|[k' y] F] Hk Hs;
    try discriminate; try (unfold zipped; simpl; constructor).
  simpl in Hk. injection Hk as -> Hk. simpl in Hs.
  inversion Hs as [|? ? Hs' Hall]; subst.
  specialize (IH F Hk Hs').
  assert (Hhead : forall r, In r (dropna_rows (zipped L F)) ->
                            Timestamp.lt k' (idx r)).
  { intros r Hr. rewrite Forall_forall in Hall. apply Hall.
    destruct (zipped_sound L F r Hk Hr) as [HL _].
    change (idx r) with (fst (idx r, Some (leg r))). now apply in_map. }
  unfold zipped in *. simpl.
  destruct x, y; simpl; auto.
  constructor; [exact IH|]. apply Forall_forall. intros r Hr. simpl.
  now apply Hhead.
Qed.

Lemma make_frame_same_index (L F : Series) :
  map fst L = map fst F -> make_frame L F = Ok (zipped L F).
Proof.
  intros Hk. unfold make_frame, union_index, reindex.
  rewrite <- Hk, !index_equal_refl. reflexivity.
Qed.

(** C5, as amended.  When no timestamp is repeated within either file, the
    alignment succeeds; the timestamps of the aligned frame are exactly those
    at which both files hold a value, every row carries the values of the two
    files at its timestamp, and the rows ascend strictly, so no timestamp
    occurs twice. *)
Theorem align_unique_inputs (df_fly df_leg : Series) :
  NoDup (map fst df_fly) -> NoDup (map fst df_leg) ->
  exists df, align df_fly df_leg = Ok df /\ aligned df_fly df_leg df.
Proof.
  intros Hf Hl. unfold align.
  set (c := common (map fst df_fly) (map fst df_leg)).
  set (F := sort_values (isin c df_fly)).
  set (L := sort_values (isin c df_leg)).
  assert (HinF : forall r, In r F <-> In r df_fly /\ In (fst r) c).
  { intros r. unfold F, sort_values. rewrite <- isin_In. split; intros H.
    - eapply Permutation_in; [apply sort_by_perm | exact H].
    - eapply Permutation_in; [symmetry; apply sort_by_perm | exact H]. }
  assert (HinL : forall r, In r L <-> In r df_leg /\ In (fst r) c).
  { intros r. unfold L, sort_values. rewrite <- isin_In. split; intros H.
    - eapply Permutation_in; [apply sort_by_perm | exact H].
    - eapply Permutation_in; [symmetry; apply sort_by_perm | exact H]. }
  assert (HsF : StronglySorted Timestamp.lt (map fst F)).
  { apply sort_by_strict. unfold isin. now apply NoDup_map_filter. }
  assert (HsL : StronglySorted Timestamp.lt (map fst L)).
  { apply sort_by_strict. unfold isin. now apply NoDup_map_filter. }
  assert (Hc : forall t, In t c <-> In t (map fst df_fly) /\ In t (map fst df_leg)).
  { intros t. apply common_In. }
  assert (Hkeys : map fst L = map fst F).
  { apply sorted_unique; auto. intros t. rewrite !in_map_iff. split.
    - intros ([t' v] & <- & Hr). apply HinL in Hr. destruct Hr as [_ Hr].
      simpl in *. destruct (proj1 (Hc t') Hr) as [Hfly _].
      apply in_map_iff in Hfly. destruct Hfly as (r & Hr1 & Hr2).
      exists r. split; [exact Hr1|]. apply HinF. rewrite Hr1. auto.
    - intros ([t' v] & <- & Hr). apply HinF in Hr. destruct Hr as [_ Hr].
      simpl in *. destruct (proj1 (Hc t') Hr) as [_ Hleg].
      apply in_map_iff in Hleg. destruct Hleg as (r & Hr1 & Hr2).
      exists r. split; [exact Hr1|]. apply HinL. rewrite Hr1. auto. }
  rewrite (make_frame_same_index L F Hkeys). unfold bind.
  pose proof (zipped_ascending L F Hkeys HsL) as Hasc.
  rewrite (sort_by_fixed idx _ Hasc).
  eexists. split; [reflexivity|].
  assert (Hnd : NoDup (map fst L)).
  { eapply Permutation_NoDup.
    - apply Permutation_map. symmetry. apply sort_by_perm.
    - unfold isin. now apply NoDup_map_filter. }
  assert (Hrows : forall r, In r (dropna_rows (zipped L F)) ->
            In (idx r, Some (fly r)) df_fly /\ In (idx r, Some (leg r)) df_leg).
  { intros r Hr. destruct (zipped_sound L F r Hkeys Hr) as [H1 H2].
    apply HinL in H1. apply HinF in H2. tauto. }
  split; [|split; [exact Hrows | exact Hasc]].
  intros t. split.
  - intros Ht. apply in_map_iff in Ht. destruct Ht as (r & <- & Hr).
    destruct (Hrows r Hr). split; eexists; eauto.
  - intros [[v Hv] [w Hw]].
    assert (Htc : In t c).
    { apply Hc. split.
      - change t with (fst (t, Some v)). now apply in_map.
      - change t with (fst (t, Some w)). now apply in_map. }
    change t with (idx (mkRow t w v)). apply in_map.
    apply zipped_complete; auto.
    + apply HinL. auto.
    + apply HinF. auto.
Qed.

Lemma align_unique_inputs_witness :
  exists df, align Samples.daily_fly Samples.daily_leg = Ok df /\
             aligned Samples.daily_fly Samples.daily_leg df.
Proof.
  apply align_unique_inputs.
  - apply (NoDup_map_inv (fun t => Timestamp.day t + 100 * Timestamp.month t)%Z).
    vm_compute. repeat (constructor; [simpl; intuition discriminate|]).
    constructor.
  - apply (NoDup_map_inv (fun t => Timestamp.day t + 100 * Timestamp.month t)%Z).
    vm_compute. repeat (constructor; [simpl; intuition discriminate|]).
    constructor.
Defined.

(** C5 fails as stated: when both files repeat the timestamp 2024-01-01, the
    two index columns are equal, the frame keeps both rows, and the aligned
    frame holds the timestamp twice; nothing is collapsed. *)
Lemma align_keeps_repeated_timestamp :
  exists df r1 r2,
    align Samples.twice_fly Samples.twice_leg = Ok df /\
    df = [r1; r2] /\ idx r1 = idx r2 /\
    ~ aligned Samples.twice_fly Samples.twice_leg df.
Proof.
  do 3 eexists. split; [vm_compute; reflexivity|].
  split; [reflexivity|]. split; [reflexivity|].
  intros (_ & _ & Hasc). unfold ascending in Hasc.
  inversion Hasc as [|? ? _ Hall]; subst.
  inversion Hall as [|? ? Hlt _]; subst.
  exact (lt_irrefl _ Hlt).
Qed.

End AlignFacts.

(** * Further properties of the rolling loop *)

Module RollingExtras.
Import TimestampFacts RollingFacts.

(** The cut-off lies strictly before the stamp it is computed from. *)
Lemma cutoff_before (t : Timestamp.t) :
  1 <= Timestamp.month t <= 12 -> Timestamp.lt (cutoff t) t.
Proof.
  intros Hm. unfold cutoff, Timestamp.sub_months, Timestamp.lt. simpl.
  set (i := Timestamp.year t * 12 + (Timestamp.month t - 1) - 3).
  pose proof (Z.div_mod i 12 ltac:(lia)).
  pose proof (Z.mod_pos_bound i 12 ltac:(lia)).
  assert (i = Timestamp.year t * 12 + (Timestamp.month t - 1) - 3) by reflexivity.
  clearbody i. lia.
Qed.

(** X5.  Every row lies in its own window, so the window handed to the fit is
    never empty. *)
Theorem window_contains_row (df : DataFrame) (r : Row) :
  In r df -> 1 <= Timestamp.month (idx r) <= 12 ->
  In r (window_df df (idx r)).
Proof.
  intros Hr Hm. apply window_df_spec. split; [exact Hr|].
  left. now apply cutoff_before.
Qed.

Lemma window_contains_row_witness :
  In (mkRow (Samples.day2024 0) 1 7)
     (window_df Samples.exact_df (Samples.day2024 0)).
Proof.
  apply (window_contains_row Samples.exact_df (mkRow (Samples.day2024 0) 1 7)).
  - right. left. reflexivity.
  - simpl. lia.
Defined.

Lemma iloc_last_cons {A : Type} (x : A) (l : list A) :
  l <> [] -> iloc_last (x :: l) = iloc_last l.
Proof.
  intros Hl. unfold iloc_last. simpl.
  destruct (rev l) as [|y l'] eqn:E; [|reflexivity].
  apply (f_equal (@rev A)) in E. rewrite rev_involutive in E. simpl in E.
  congruence.
Qed.

Lemma last_is_latest (df : DataFrame) (r : Row) :
  ascending df -> iloc_last df = Ok r ->
  forall r', In r' df -> Timestamp.le (idx r') (idx r).
Proof.
  unfold ascending. induction 1 as [|x df Hs IH Hall]; intros Hlast r' Hr'.
  - destruct Hr'.
  - destruct df as [|y df].
    + unfold iloc_last in Hlast. simpl in Hlast. inversion Hlast; subst.
      destruct Hr' as [<- | []]. apply le_refl.
    + rewrite iloc_last_cons in Hlast by discriminate.
      destruct Hr' as [<- | Hr']; [|now apply IH].
      left. rewrite Forall_forall in Hall. apply Hall.
      apply MetricsFacts.iloc_last_In. exact Hlast.
Qed.

(** X7.  For the last row of an ascending frame, the row behind the headline
    z-score, the window is exactly the trailing three-month window. *)
Theorem last_row_window_is_trailing (df : DataFrame) (r : Row) :
  ascending df -> iloc_last df = Ok r ->
  trailing_window df (idx r) (window_df df (idx r)).
Proof.
  intros Hasc Hlast r'. rewrite window_df_spec. split.
  - intros [Hin Hle]. repeat split; auto. eapply last_is_latest; eauto.
  - tauto.
Qed.

Lemma last_row_window_is_trailing_witness :
  trailing_window Samples.daily_df (Samples.day2024 49)
    (window_df Samples.daily_df (Samples.day2024 49)).
Proof.
  apply (last_row_window_is_trailing Samples.daily_df
           (mkRow (Samples.day2024 49) (inject_Z 49) (inject_Z (49 * 49)))).
  - apply ascendingb_sound. vm_compute. reflexivity.
  - vm_compute. reflexivity.
Defined.

Lemma filter_keeps_all {A : Type} (p : A -> bool) (l : list A) :
  (forall x, In x l -> p x = true) -> filter p l = l.
Proof.
  induction l as [|x l IH]; simpl; intros H; [reflexivity|].
  rewrite (H x (or_introl eq_refl)), IH; auto.
Qed.

(** X6.  The window of the first row of an ascending frame is the whole frame:
    its fit uses every later row, and its record is defined exactly when the
    frame has [min_periods] rows. *)
Theorem first_row_window_is_frame (r : Row) (rest : DataFrame) (mp : Z) :
  ascending (r :: rest) -> 1 <= Timestamp.month (idx r) <= 12 ->
  window_df (r :: rest) (idx r) = r :: rest /\
  forall tbl f,
    regress (r :: rest) mp = Ok tbl -> nth_error tbl 0 = Some f ->
    undefined f = (Z.of_nat (length (r :: rest)) <? mp).
Proof.
  intros Hasc Hm.
  assert (Hw : window_df (r :: rest) (idx r) = r :: rest).
  { unfold window_df. apply filter_keeps_all. intros r' Hr'.
    apply geb_le. left. pose proof (cutoff_before _ Hm) as Hc.
    destruct Hr' as [<- | Hr']; [exact Hc|].
    unfold ascending in Hasc. inversion Hasc as [|? ? _ Hall]; subst.
    rewrite Forall_forall in Hall. eapply lt_trans; [exact Hc | now apply Hall]. }
  split; [exact Hw|].
  intros tbl f Hrun Hf.
  destruct (regress_nth _ _ _ _ _ Hrun Hf) as (r0 & Hr0 & _ & Hfit).
  simpl in Hr0. inversion Hr0; subst r0.
  apply fit_row_undefined in Hfit. unfold undefined. now rewrite Hfit, Hw.
Qed.

Lemma first_row_window_is_frame_witness :
  window_df Samples.gap_df (Samples.day2024 0) = Samples.gap_df.
Proof.
  refine (proj1 (first_row_window_is_frame
                   (mkRow (Samples.day2024 0) (inject_Z 0) (inject_Z (0 * 0)))
                   (tl Samples.gap_df) 50 _ _)).
  - apply ascendingb_sound. vm_compute. reflexivity.
  - simpl. lia.
Defined.

Lemma attach_rows (df : DataFrame) (coefs : list (float * float)) :
  length coefs = length df -> map row (attach df coefs) = df.
Proof.
  unfold attach. revert coefs.
  induction df as [|r df IH]; intros [|mb coefs] H; simpl in *;
    try reflexivity; try discriminate.
  f_equal. apply IH. lia.
Qed.

(** X10.  A completed run returns one record per row of the frame, in the order of
    the rows, each built from its own row. *)
Theorem regress_keeps_rows (df : DataFrame) (mp : Z) (tbl : list Fitted) :
  regress df mp = Ok tbl ->
  map row tbl = df /\
  forall f, In f tbl -> f = attach_row (row f) (beta f, intercept f).
Proof.
  intros Hrun. split.
  - unfold regress, rolling in Hrun.
    destruct (for_each _ _) as [coefs|] eqn:E; simpl in Hrun; [|discriminate].
    inversion Hrun; subst. apply attach_rows.
    apply for_each_length in E. now rewrite E, length_map.
  - intros f Hf. destruct (In_nth_error _ _ Hf) as (i & Hi).
    eapply PolyfitFacts.regress_nth_attach; eauto.
Qed.

Lemma regress_keeps_rows_witness :
  exists tbl, regress Samples.flat_df 50 = Ok tbl /\ map row tbl = Samples.flat_df.
Proof.
  destruct (regress Samples.flat_df 50) as [tbl|] eqn:E;
    [|vm_compute in E; discriminate].
  exists tbl. split; [reflexivity|].
  exact (proj1 (regress_keeps_rows Samples.flat_df 50 tbl E)).
Defined.

Lemma window_length_le (df : DataFrame) (t : Timestamp.t) :
  (length (window_df df t) <= length df)%nat.
Proof. unfold window_df. apply filter_length_le. Qed.

Lemma for_each_const {A B : Type} (f : A -> Result B) (b : B) (l : list A) :
  (forall a, In a l -> f a = Ok b) -> for_each f l = Ok (map (fun _ => b) l).
Proof.
  induction l as [|a l IH]; simpl; intros H; [reflexivity|].
  rewrite (H a (or_introl eq_refl)), IH; auto.
Qed.

Lemma attach_const (df : DataFrame) (mb : float * float) :
  attach df (map (fun _ => mb) (map idx df)) = map (fun r => attach_row r mb) df.
Proof.
  unfold attach. induction df as [|r df IH]; simpl; [reflexivity|].
  now rewrite IH.
Qed.

Lemma attach_row_nan (r : Row) :
  attach_row r (NaN, NaN) = mkFitted r NaN NaN NaN NaN.
Proof. reflexivity. Qed.

(** A frame with fewer rows than [min_periods] is never fitted. *)
Lemma short_frame_regress (df : DataFrame) (mp : Z) :
  Z.of_nat (length df) < mp ->
  regress df mp = Ok (map (fun r => mkFitted r NaN NaN NaN NaN) df).
Proof.
  intros Hlen. unfold regress, rolling.
  rewrite (for_each_const _ (NaN, NaN)).
  - simpl. now rewrite attach_const.
  - intros t _. unfold fit_row.
    pose proof (window_length_le df t).
    assert (E : (Z.of_nat (length (window_df df t)) <? mp) = true)
      by (apply Z.ltb_lt; lia).
    now rewrite E.
Qed.

End RollingExtras.

(** * Further properties of the fit *)

Module PolyfitExtras.
Import PolyfitFacts.
Local Open Scope Q_scope.













End PolyfitExtras.

(** * Which exceptions the script can raise after the alignment *)

Module ExceptionExtras.
Import PolyfitFacts.



Local Open Scope Q_scope.




Section Script.
Variable sqrtQ : Q -> Q.


End Script.


Lemma in_calendarb_sound (df : DataFrame) : in_calendarb df = true -> in_calendar df.
Proof.
  unfold in_calendarb, in_calendar, Timestamp.valid. rewrite forallb_forall.
  intros H r Hr. specialize (H r Hr). cbv zeta in H.
  rewrite !andb_true_iff, !Z.leb_le, Z.ltb_lt in H. lia.
Qed.


End ExceptionExtras.

(** * Further properties of the metrics *)

Module MetricsExtras.
Import PolyfitFacts MetricsFacts.
Local Open Scope Q_scope.

Lemma dropna_idempotent (col : list float) : dropna (dropna col) = dropna col.
Proof.
  unfold dropna. induction col as [|x col IH]; simpl; [reflexivity|].
  destruct (notna x) eqn:E; simpl; [rewrite E|]; congruence.
Qed.

Lemma qpow_two (d : Q) : qpow d 2 == d * d.
Proof. simpl. ring. Qed.

Lemma qpow_four (d : Q) : qpow d 4 == (d * d) * (d * d).
Proof. simpl. ring. Qed.

(** The fourth central moment is at least the square of the second. *)
Lemma central_four_two (l : list Q) : central 2 l * central 2 l <= central 4 l.
Proof.
  destruct l as [|a l].
  { vm_compute. discriminate. }
  set (s := a :: l).
  set (D := map (fun x => (x - qmean s) * (x - qmean s)) s).
  assert (H2 : central 2 s == Qsum D / Qlen s).
  { unfold central, qmean at 1. rewrite Qlen_map. unfold D.
    now rewrite (Qsum_ext _ (fun x => (x - qmean s) * (x - qmean s)))
      by (intros; apply qpow_two). }
  assert (H4 : central 4 s == Qsum (sq D) / Qlen s).
  { unfold central, qmean at 1. rewrite Qlen_map. unfold D, sq.
    rewrite map_map.
    now rewrite (Qsum_ext _ (fun x => (x - qmean s) * (x - qmean s)
                                      * ((x - qmean s) * (x - qmean s))))
      by (intros; apply qpow_four). }
  pose proof (Qlen_pos a l) as Hn. fold s in Hn.
  pose proof (det_nonneg D) as Hd. unfold det in Hd.
  assert (HlenD : Qlen D = Qlen s) by (unfold D; apply Qlen_map).
  rewrite HlenD in Hd.
  assert (Hgap : central 4 s - central 2 s * central 2 s
                 == (Qlen s * Qsum (sq D) - Qsum D * Qsum D) / (Qlen s * Qlen s)).
  { rewrite H2, H4. field. lra. }
  assert (Hpos : 0 <= (Qlen s * Qsum (sq D) - Qsum D * Qsum D) / (Qlen s * Qlen s)).
  { apply Qle_shift_div_l; [nra | lra]. }
  lra.
Qed.

Section Reported.
Variable sqrtQ : Q -> Q.

(** X14.  The saved record is consistent with the headline: its mean and standard
    deviation, computed after [dropna], are the ones the z-score was formed
    with on the full column, so the saved z-score is (last residual - saved
    mean) / saved standard deviation. *)
Theorem saved_metrics_consistent (df : DataFrame) (mp : Z) (m : Metrics) :
  summarize sqrtQ df mp = Ok m ->
  exists tbl f,
    regress df mp = Ok tbl /\ iloc_last tbl = Ok f /\
    mean m = pd_mean (map residual tbl) /\
    std m = pd_std sqrtQ (map residual tbl) /\
    z_score m = fdiv (fsub (residual f) (mean m)) (std m).
Proof.
  intros H. destruct (summarize_inv _ _ _ _ H) as (tbl & z & Hrun & Hz & ->).
  unfold headline, latest_residual in Hz.
  destruct (iloc_last (map residual tbl)) as [x|] eqn:Hx; simpl in Hz;
    [|discriminate].
  assert (Htbl : tbl <> []).
  { intros ->. discriminate. }
  destruct (iloc_last_nonempty tbl Htbl) as (f & Hf & _).
  rewrite (iloc_last_map residual _ _ Hf) in Hx. inversion Hx; subst x.
  exists tbl, f. cbn [mean std z_score].
  assert (Hm : pd_mean (dropna (map residual tbl)) = pd_mean (map residual tbl)).
  { unfold pd_mean. now rewrite dropna_idempotent. }
  assert (Hs : pd_std sqrtQ (dropna (map residual tbl))
               = pd_std sqrtQ (map residual tbl)).
  { unfold pd_std. now rewrite dropna_idempotent. }
  rewrite Hm, Hs. repeat split; auto. now inversion Hz.
Qed.

(** X15.  The reported kurtosis is NaN or a number that is at least 1. *)
Theorem kurtosis_at_least_one (df : DataFrame) (mp : Z) (m : Metrics) :
  summarize sqrtQ df mp = Ok m ->
  kurtosis_p m = NaN \/ exists k, kurtosis_p m = Fin k /\ 1 <= k.
Proof.
  intros H. destruct (summarize_inv _ _ _ _ H) as (tbl & z & Hrun & _ & ->).
  cbn [kurtosis_p].
  rewrite (dropna_finite_values _ (residual_column_no_inf _ _ _ Hrun)).
  set (R := finite_values (map residual tbl)).
  rewrite (proj1 (kurtosis_of_sample R)).
  destruct (Qeq_bool (central 2 R) 0) eqn:E; [now left|].
  right. eexists. split; [reflexivity|].
  apply Qeq_bool_neq in E. rewrite Qred_correct.
  pose proof (central_four_two R) as Hge.
  pose proof (central2_nonneg R) as H2.
  assert (Hsq : 0 < central 2 R * central 2 R).
  { destruct (Qlt_le_dec 0 (central 2 R)) as [Hlt | Hle]; [nra|].
    exfalso. apply E. lra. }
  apply Qle_shift_div_l; [exact Hsq | lra].
Qed.

Lemma residual_all_nan (df : DataFrame) :
  dropna (map residual (map (fun r => mkFitted r NaN NaN NaN NaN) df)) = [].
Proof. induction df; simpl; auto. Qed.

(** X12.  With at least one and fewer than [min_periods] aligned rows, stamped
    between 1700 and 2200 (so that the month subtraction stays on the
    calendar), the script completes, every record is undefined, and all five
    saved metrics are NaN. *)
Theorem short_frame_all_undefined (df : DataFrame) (mp : Z) :
  df <> [] -> in_calendar df -> (Z.of_nat (length df) < mp)%Z ->
  regress df mp = Ok (map (fun r => mkFitted r NaN NaN NaN NaN) df) /\
  summarize sqrtQ df mp = Ok (mkMetrics NaN NaN NaN NaN NaN).
Proof.
  intros Hne _ Hlen.
  pose proof (RollingExtras.short_frame_regress df mp Hlen) as Hrun.
  split; [exact Hrun|].
  unfold summarize. rewrite Hrun. cbn [bind].
  set (tbl := map (fun r => mkFitted r NaN NaN NaN NaN) df).
  assert (Hlast : iloc_last (map residual tbl) = Ok NaN).
  { destruct (iloc_last_nonempty tbl) as (f & Hf & _).
    - unfold tbl. destruct df; [congruence | discriminate].
    - rewrite (iloc_last_map residual _ _ Hf). f_equal.
      apply iloc_last_In in Hf. unfold tbl in Hf. apply in_map_iff in Hf.
      destruct Hf as (r & <- & _). reflexivity. }
  unfold headline, latest_residual. rewrite Hlast. cbn [bind].
  destruct (iloc_last_nonempty (map idx df)) as (t & Ht & _).
  { destruct df; [congruence | discriminate]. }
  rewrite Ht. cbn [bind]. unfold tbl. rewrite residual_all_nan.
  reflexivity.
Qed.

End Reported.

Lemma saved_metrics_consistent_witness :
  exists m, summarize Samples.sqrt_up Samples.daily_df 50 = Ok m /\
            mean m = Fin 0 /\ std m = Fin 189 /\ z_score m = Fin (56 # 27).
Proof.
  destruct (summarize Samples.sqrt_up Samples.daily_df 50) as [m|] eqn:E;
    [|vm_compute in E; discriminate].
  destruct (saved_metrics_consistent Samples.sqrt_up Samples.daily_df 50 m E)
    as (tbl & f & _ & _ & _ & _ & _).
  exists m. split; [reflexivity|].
  vm_compute in E. inversion E. repeat split; reflexivity.
Defined.

Lemma kurtosis_at_least_one_witness :
  exists m k, summarize Samples.sqrt_up Samples.daily_df 50 = Ok m /\
              kurtosis_p m = Fin k /\ 1 <= k.
Proof.
  destruct (summarize Samples.sqrt_up Samples.daily_df 50) as [m|] eqn:E;
    [|vm_compute in E; discriminate].
  destruct (kurtosis_at_least_one Samples.sqrt_up Samples.daily_df 50 m E)
    as [Hnan | (k & Hk & Hge)].
  - vm_compute in E. inversion E; subst. discriminate.
  - exists m, k. auto.
Defined.

Lemma short_frame_all_undefined_witness :
  summarize Samples.sqrt_up Samples.short_df 50 = Ok (mkMetrics NaN NaN NaN NaN NaN).
Proof.
  refine (proj2 (short_frame_all_undefined Samples.sqrt_up Samples.short_df 50 _ _ _)).
  - discriminate.
  - apply ExceptionExtras.in_calendarb_sound. vm_compute. reflexivity.
  - vm_compute. reflexivity.
Defined.

End MetricsExtras.

(** * Further properties of the alignment *)

Module AlignExtras.
Import TimestampFacts AlignFacts.

Lemma index_equal_eq (a b : list Timestamp.t) : index_equal a b = true -> a = b.
Proof.
  revert b. induction a as [|x a IH]; intros [|y b]; simpl; try discriminate; auto.
  intros H. apply andb_true_iff in H. destruct H as [Hxy Hab].
  apply eqb_eq in Hxy. subst. f_equal. now apply IH.
Qed.

Lemma combine_fst_snd {A B : Type} (l : list (A * B)) :
  combine (map fst l) (map snd l) = l.
Proof. induction l as [|[a b] l IH]; simpl; congruence. Qed.

Lemma lookup_In (t : Timestamp.t) (s : Series) (v : Q) :
  lookup t s = Some v -> In (t, Some v) s.
Proof.
  unfold lookup. destruct (find _ s) as [[t' c]|] eqn:E; [|discriminate].
  simpl. intros ->. apply find_some in E. destruct E as [Hin Heq].
  simpl in Heq. apply eqb_eq in Heq. now subst.
Qed.

(** Reindexing never invents a value: a number found at a label of the
    target is a number the series holds at that label. *)
Lemma reindex_sound (s : Series) (target : list Timestamp.t) (vals : list Close)
      (t : Timestamp.t) (v : Q) :
  reindex s target = Ok vals -> In (t, Some v) (combine target vals) ->
  In (t, Some v) s.
Proof.
  unfold reindex. destruct (index_equal (map fst s) target) eqn:E.
  - apply index_equal_eq in E. subst target. intros H; inversion H; subst.
    now rewrite combine_fst_snd.
  - destruct (is_unique (map fst s)); [|discriminate].
    intros H; inversion H; subst. clear. induction target as [|x target IH]; simpl.
    + tauto.
    + intros [Hx | Hin]; [|now apply IH].
      inversion Hx as [[Ht Hv]]; subst. rewrite Hv. exact (lookup_In _ _ _ Hv).
Qed.

Lemma reindex_raises (s : Series) (target : list Timestamp.t) (e : exn) :
  reindex s target = Raise e -> e = ValueError /\ is_unique (map fst s) = false.
Proof.
  unfold reindex. destruct (index_equal (map fst s) target); [discriminate|].
  destruct (is_unique (map fst s)); [discriminate|].
  intros H; inversion H. auto.
Qed.

Lemma combine_nested {A B C : Type} (I : list A) (X : list B) (Y : list C)
      (a : A) (x : B) (y : C) :
  In (a, (x, y)) (combine I (combine X Y)) ->
  In (a, x) (combine I X) /\ In (a, y) (combine I Y).
Proof.
  revert X Y. induction I as [|i I IH]; intros [|x0 X] [|y0 Y]; simpl;
    try tauto.
  intros [H | H].
  - inversion H; subst. auto.
  - destruct (IH _ _ H). auto.
Qed.

Lemma dropna_rows_In (frame : list (Timestamp.t * (Close * Close))) (r : Row) :
  In r (dropna_rows frame) -> In (idx r, (Some (leg r), Some (fly r))) frame.
Proof.
  induction frame as [|[t [[a|] [b|]]] frame IH]; simpl; try tauto.
  intros [<- | H]; [now left | right; auto].
Qed.

Lemma sort_values_In (c : list Timestamp.t) (s : Series) (r : Timestamp.t * Close) :
  In r (sort_values (isin c s)) -> In r s.
Proof.
  unfold sort_values. intros H.
  apply (Permutation_in _ (sort_by_perm fst (isin c s))) in H.
  now apply isin_In in H.
Qed.

(** X1.  Whatever the files hold, repeated timestamps included, a completed
    alignment returns its rows in chronological order, and every row carries
    a fly value and a leg value that the files record at the row's own
    timestamp: nothing is taken from another timestamp and no missing value
    gets through. *)
Theorem align_rows_come_from_files (df_fly df_leg : Series) (df : DataFrame) :
  align df_fly df_leg = Ok df ->
  StronglySorted (fun a b => Timestamp.le (idx a) (idx b)) df /\
  forall r, In r df ->
    In (idx r, Some (fly r)) df_fly /\ In (idx r, Some (leg r)) df_leg.
Proof.
  unfold align.
  set (c := common (map fst df_fly) (map fst df_leg)).
  set (F := sort_values (isin c df_fly)).
  set (L := sort_values (isin c df_leg)).
  destruct (make_frame L F) as [frame|] eqn:E; simpl; [|discriminate].
  intros H; inversion H; subst df; clear H.
  split; [apply sort_by_sorted|].
  intros r Hr.
  apply (Permutation_in _ (sort_by_perm idx (dropna_rows frame))) in Hr.
  apply dropna_rows_In in Hr.
  unfold make_frame in E.
  set (index := union_index (map fst L) (map fst F)) in *.
  destruct (reindex L index) as [legs|] eqn:EL; simpl in E; [|discriminate].
  destruct (reindex F index) as [flys|] eqn:EF; simpl in E; [|discriminate].
  inversion E; subst frame; clear E.
  apply combine_nested in Hr. destruct Hr as [HL HF].
  apply (reindex_sound _ _ _ _ _ EL) in HL.
  apply (reindex_sound _ _ _ _ _ EF) in HF.
  split; eapply sort_values_In; eauto.
Qed.

Lemma align_rows_come_from_files_witness :
  exists df, align Samples.twice_fly Samples.twice_leg = Ok df /\
             forall r, In r df -> In (idx r, Some (fly r)) Samples.twice_fly.
Proof.
  destruct (align Samples.twice_fly Samples.twice_leg) as [df|] eqn:E;
    [|vm_compute in E; discriminate].
  exists df. split; [reflexivity|]. intros r Hr.
  exact (proj1 (proj2 (align_rows_come_from_files _ _ df E) r Hr)).
Defined.

Lemma is_unique_NoDup (l : list Timestamp.t) : NoDup l -> is_unique l = true.
Proof.
  induction 1 as [|x l Hx Hl IH]; simpl; [reflexivity|].
  rewrite IH, andb_true_r. apply negb_true_iff. apply not_true_is_false.
  intros H. apply mem_In in H. contradiction.
Qed.

Lemma sort_values_unique (c : list Timestamp.t) (s : Series) :
  NoDup (map fst s) -> NoDup (map fst (sort_values (isin c s))).
Proof.
  intros H. unfold sort_values. eapply Permutation_NoDup.
  - apply Permutation_map. symmetry. apply sort_by_perm.
  - unfold isin. now apply NoDup_map_filter.
Qed.

(** X2.  The alignment can fail in one way only: with [ValueError], and then at
    least one of the two files repeats a timestamp. *)
Theorem align_raises_only_on_repeats (df_fly df_leg : Series) (e : exn) :
  align df_fly df_leg = Raise e ->
  e = ValueError /\ (~ NoDup (map fst df_fly) \/ ~ NoDup (map fst df_leg)).
Proof.
  unfold align.
  set (c := common (map fst df_fly) (map fst df_leg)).
  set (F := sort_values (isin c df_fly)).
  set (L := sort_values (isin c df_leg)).
  destruct (make_frame L F) as [frame|e'] eqn:E; simpl; [discriminate|].
  intros H; inversion H; subst e'; clear H.
  unfold make_frame in E.
  set (index := union_index (map fst L) (map fst F)) in *.
  destruct (reindex L index) as [legs|e1] eqn:EL; simpl in E.
  - destruct (reindex F index) as [flys|e2] eqn:EF; simpl in E; [discriminate|].
    inversion E; subst e2. apply reindex_raises in EF. destruct EF as [-> Hu].
    split; [reflexivity|]. left. intros Hnd.
    apply (sort_values_unique c) in Hnd. apply is_unique_NoDup in Hnd.
    fold F in Hnd. congruence.
  - inversion E; subst e1. apply reindex_raises in EL. destruct EL as [-> Hu].
    split; [reflexivity|]. right. intros Hnd.
    apply (sort_values_unique c) in Hnd. apply is_unique_NoDup in Hnd.
    fold L in Hnd. congruence.
Qed.

Lemma align_raises_only_on_repeats_witness :
  align Samples.twice_fly Samples.thrice_leg = Raise ValueError /\
  (~ NoDup (map fst Samples.twice_fly) \/ ~ NoDup (map fst Samples.thrice_leg)).
Proof.
  split; [vm_compute; reflexivity|].
  exact (proj2 (align_raises_only_on_repeats Samples.twice_fly Samples.thrice_leg
                  ValueError eq_refl)).
Defined.

Lemma filter_perm {A : Type} (p q : A -> bool) (l l' : list A) :
  (forall x, p x = q x) -> Permutation l l' ->
  Permutation (filter p l) (filter q l').
Proof.
  intros Hpq H. induction H as [|x l l' H IH|x y l|l l' l'' H1 IH1 H2 IH2]; simpl.
  - constructor.
  - rewrite <- Hpq. destruct (p x); [now constructor | assumption].
  - rewrite <- !Hpq. rewrite (filter_ext p q Hpq).
    destruct (p x), (p y); try reflexivity. apply perm_swap.
  - etransitivity; [exact IH1|].
    rewrite <- (filter_ext p q Hpq). exact IH2.
Qed.

Lemma sorted_perm_unique {A : Type} (key : A -> Timestamp.t) (l l' : list A) :
  StronglySorted (fun a b => Timestamp.lt (key a) (key b)) l ->
  StronglySorted (fun a b => Timestamp.lt (key a) (key b)) l' ->
  Permutation l l' -> l = l'.
Proof.
  intros Hs. revert l'. induction Hs as [|a l Hs IH Hall]; intros l' Hs' Hp.
  - apply Permutation_nil in Hp. now subst.
  - destruct l' as [|b l'].
    { apply Permutation_sym, Permutation_nil in Hp. discriminate. }
    inversion Hs' as [|? ? Hs'' Hall']; subst.
    rewrite Forall_forall in Hall, Hall'.
    assert (Hab : a = b).
    { assert (Ha : In a (b :: l')) by (eapply Permutation_in; [exact Hp | now left]).
      assert (Hb : In b (a :: l))
        by (eapply Permutation_in; [symmetry; exact Hp | now left]).
      destruct Ha as [Ha | Ha]; [now symmetry|].
      destruct Hb as [Hb | Hb]; [assumption|].
      exfalso. apply (lt_irrefl (key a)).
      eapply lt_trans; [apply Hall, Hb | apply Hall', Ha]. }
    subst b. f_equal. apply IH; [exact Hs''|].
    eapply Permutation_cons_inv; eauto.
Qed.

Lemma sort_values_perm (c c' : list Timestamp.t) (s s' : Series) :
  NoDup (map fst s) -> Permutation s s' ->
  (forall t, In t c <-> In t c') ->
  sort_values (isin c s) = sort_values (isin c' s').
Proof.
  intros Hnd Hp Hc.
  assert (Hnd' : NoDup (map fst s')).
  { eapply Permutation_NoDup; [apply Permutation_map; exact Hp | exact Hnd]. }
  unfold sort_values. apply (sorted_perm_unique fst).
  - apply sorted_strict; [apply sort_by_sorted|].
    now apply (sort_values_unique c).
  - apply sorted_strict; [apply sort_by_sorted|].
    now apply (sort_values_unique c').
  - rewrite !sort_by_perm. unfold isin. apply filter_perm; [|exact Hp].
    intros r. destruct (mem (fst r) c) eqn:E1, (mem (fst r) c') eqn:E2;
      try reflexivity.
    + apply mem_In, Hc, mem_In in E1. congruence.
    + apply mem_In, Hc, mem_In in E2. congruence.
Qed.

(** X3.  The aligned frame does not depend on the order of the rows in the
    uploaded files, as long as no file repeats a timestamp. *)
Theorem align_ignores_row_order (df_fly df_fly' df_leg df_leg' : Series) :
  NoDup (map fst df_fly) -> NoDup (map fst df_leg) ->
  Permutation df_fly df_fly' -> Permutation df_leg df_leg' ->
  align df_fly' df_leg' = align df_fly df_leg.
Proof.
  intros Hf Hl Pf Pl. unfold align.
  assert (Hc : forall t,
             In t (common (map fst df_fly) (map fst df_leg)) <->
             In t (common (map fst df_fly') (map fst df_leg'))).
  { intros t. rewrite !common_In. split; intros [H1 H2]; split.
    - eapply Permutation_in; [apply Permutation_map; exact Pf | exact H1].
    - eapply Permutation_in; [apply Permutation_map; exact Pl | exact H2].
    - eapply Permutation_in; [apply Permutation_map; symmetry; exact Pf | exact H1].
    - eapply Permutation_in; [apply Permutation_map; symmetry; exact Pl | exact H2]. }
  rewrite <- (sort_values_perm _ _ _ _ Hf Pf Hc).
  rewrite <- (sort_values_perm _ _ _ _ Hl Pl Hc).
  reflexivity.
Qed.

Lemma align_ignores_row_order_witness :
  align Samples.three_fly_shuffled Samples.three_leg_shuffled
  = align Samples.three_fly Samples.three_leg.
Proof.
  apply align_ignores_row_order.
  - apply (NoDup_map_inv Timestamp.day). vm_compute.
    repeat (constructor; [simpl; intuition discriminate|]). constructor.
  - apply (NoDup_map_inv Timestamp.day). vm_compute.
    repeat (constructor; [simpl; intuition discriminate|]). constructor.
  - vm_compute. apply perm_swap.
  - vm_compute. apply perm_skip. apply perm_swap.
Defined.

End AlignExtras.

(** * Further properties of the month arithmetic and of the plot grid *)

Module CalendarExtras.
Import TimestampFacts.

Lemma days_in_month_bounds (y m : Z) : 28 <= Timestamp.days_in_month y m <= 31.
Proof.
  unfold Timestamp.days_in_month.
  destruct (m =? 2); [destruct (Timestamp.is_leap y); lia|].
  destruct ((m =? 4) || (m =? 6) || (m =? 9) || (m =? 11))%bool; lia.
Qed.

(** X4.  Moving a real instant back by [k] months gives a real instant, exactly
    [k] months earlier on the calendar, on the same day of the month unless
    the target month is shorter, and at the same time of day. *)
Theorem sub_months_valid (k : Z) (t : Timestamp.t) :
  Timestamp.valid t ->
  let t' := Timestamp.sub_months k t in
  Timestamp.valid t' /\
  Timestamp.year t' * 12 + Timestamp.month t'
    = Timestamp.year t * 12 + Timestamp.month t - k /\
  (Timestamp.day t <= Timestamp.days_in_month (Timestamp.year t') (Timestamp.month t')
   -> Timestamp.day t' = Timestamp.day t) /\
  Timestamp.nanos t' = Timestamp.nanos t.
Proof.
  intros (Hm & Hd & Hn). unfold Timestamp.sub_months, Timestamp.valid. simpl.
  set (i := Timestamp.year t * 12 + (Timestamp.month t - 1) - k).
  pose proof (Z.div_mod i 12 ltac:(lia)) as Hdm.
  pose proof (Z.mod_pos_bound i 12 ltac:(lia)) as Hb.
  pose proof (days_in_month_bounds (i / 12) (i mod 12 + 1)) as HD.
  assert (Hi : i = Timestamp.year t * 12 + (Timestamp.month t - 1) - k)
    by reflexivity.
  clearbody i. repeat split; try lia.
Qed.

Lemma sub_months_valid_witness :
  Timestamp.valid (Timestamp.sub_months 3 Samples.may31) /\
  Timestamp.sub_months 3 Samples.may31
  = Timestamp.mk 2024 2 29 (1 * Samples.hour).
Proof.
  split; [|reflexivity].
  refine (proj1 (sub_months_valid 3 Samples.may31 _)).
  unfold Timestamp.valid. vm_compute. intuition discriminate.
Defined.

Local Open Scope Q_scope.

Lemma grid_step (c : Q) :
  fdiv (Fin c) (Fin (inject_Z (Z.of_nat 199)))
  = Fin (Qred (c / inject_Z (Z.of_nat 199))).
Proof. reflexivity. Qed.

(** X17.  The grid of the fitted curve has 200 points; for a finite mean and
    standard deviation the [i]-th point is [mu - 4 sigma + i * 8 sigma / 199],
    so the grid runs from [mu - 4 sigma] to [mu + 4 sigma] and is centred on
    the mean; with an undefined standard deviation every point is NaN. *)
Theorem curve_grid_points (mu sigma : Q) :
  length (curve_grid (Fin mu) (Fin sigma)) = 200%nat /\
  (forall i, (i <= 199)%nat ->
     exists q, nth_error (curve_grid (Fin mu) (Fin sigma)) i = Some (Fin q) /\
               q == mu - 4 * sigma + inject_Z (Z.of_nat i) * (8 * sigma / 199)) /\
  (forall x, In x (curve_grid (Fin mu) NaN) -> x = NaN).
Proof.
  split; [|split].
  - unfold curve_grid, linspace. rewrite length_app, length_map, length_seq.
    reflexivity.
  - intros i Hi. unfold curve_grid, linspace. cbn [fsub fadd fmul fneg].
    rewrite grid_step.
    set (a := Qred (mu + - Qred (4 * sigma))).
    set (b := Qred (mu + Qred (4 * sigma))).
    set (step := Qred (Qred (b + - a) / inject_Z (Z.of_nat 199))).
    assert (Ha : a == mu - 4 * sigma) by (unfold a; rewrite !Qred_correct; ring).
    assert (Hb : b == mu + 4 * sigma) by (unfold b; rewrite !Qred_correct; ring).
    assert (Hs : step == 8 * sigma / 199).
    { unfold step. rewrite !Qred_correct, Ha, Hb.
      change (inject_Z (Z.of_nat 199)) with 199. field. }
    destruct (Nat.eq_dec i 199) as [-> | Hne].
    + exists b. split.
      * rewrite nth_error_app2 by (rewrite length_map, length_seq; lia).
        rewrite length_map, length_seq. reflexivity.
      * rewrite Hb. change (inject_Z (Z.of_nat 199)) with 199. field.
    + exists (Qred (Qred (inject_Z (Z.of_nat i) * step) + a)). split.
      * rewrite nth_error_app1 by (rewrite length_map, length_seq; lia).
        rewrite nth_error_map.
        assert (Hseq : nth_error (seq 0 199) i = Some i).
        { rewrite (nth_error_nth' _ 0%nat) by (rewrite length_seq; lia).
          rewrite seq_nth by lia. reflexivity. }
        rewrite Hseq. reflexivity.
      * rewrite !Qred_correct, Hs, Ha. ring.
  - intros x Hx. unfold curve_grid, linspace in Hx. cbn [fsub fadd fmul fneg fdiv] in Hx.
    apply in_app_or in Hx. destruct Hx as [Hx | [<- | []]]; [|reflexivity].
    apply in_map_iff in Hx. destruct Hx as (i & <- & _). reflexivity.
Qed.

Lemma curve_grid_points_witness :
  exists q, nth_error (curve_grid (Fin 0) (Fin 1)) 199 = Some (Fin q) /\ q == 4.
Proof.
  destruct (proj1 (proj2 (curve_grid_points 0 1)) 199%nat) as (q & Hq & Hv).
  - lia.
  - exists q. split; [exact Hq|]. rewrite Hv. reflexivity.
Defined.

End CalendarExtras.

(** * The records attached to the frame *)

Module RecordExtras.
Local Open Scope Q_scope.

(** X11.  In the table of a completed run a record is undefined exactly when its
    row's window has fewer than [min_periods] rows; an undefined record is
    NaN in all four columns, and a defined record is finite in all four, with
    [predicted = beta * leg + intercept] and [residual = fly - predicted]. *)
Theorem record_defined_iff_window_full (df : DataFrame) (mp : Z) (tbl : list Fitted)
        (f : Fitted) :
  regress df mp = Ok tbl -> In f tbl ->
  undefined f = (Z.of_nat (length (window_df df (idx (row f)))) <? mp)%Z /\
  (undefined f = true ->
   beta f = NaN /\ intercept f = NaN /\ predicted f = NaN /\ residual f = NaN) /\
  (undefined f = false ->
   exists m b p e,
     beta f = Fin m /\ intercept f = Fin b /\ predicted f = Fin p /\
     residual f = Fin e /\
     p == m * leg (row f) + b /\ e == fly (row f) - p).
Proof.
  intros Hrun Hf. destruct (In_nth_error _ _ Hf) as (i & Hi).
  destruct (RollingFacts.regress_nth _ _ _ _ _ Hrun Hi) as (r & _ & Hrow & Hfit).
  pose proof (PolyfitFacts.regress_nth_attach _ _ _ _ _ Hrun Hi) as Hatt.
  rewrite <- Hrow in Hfit.
  split; [exact (RollingFacts.fit_row_undefined _ _ _ _ _ Hfit)|].
  destruct (MetricsFacts.fit_row_shape _ _ _ _ _ Hfit)
    as [[Hb Hi0] | (qm & qb & Hb & Hi0)].
  - split.
    + intros _. rewrite Hatt, Hb, Hi0. repeat split; reflexivity.
    + unfold undefined. rewrite Hb. discriminate.
  - split.
    + unfold undefined. rewrite Hb. discriminate.
    + intros _. rewrite Hb, Hi0 in Hatt.
      exists qm, qb, (Qred (Qred (qm * leg (row f)) + qb)),
             (Qred (fly (row f) + - Qred (Qred (qm * leg (row f)) + qb))).
      split; [exact Hb|]. split; [exact Hi0|].
      split.
      { transitivity (predicted (attach_row (row f) (Fin qm, Fin qb)));
          [f_equal; exact Hatt | reflexivity]. }
      split.
      { transitivity (residual (attach_row (row f) (Fin qm, Fin qb)));
          [f_equal; exact Hatt | reflexivity]. }
      split; rewrite !Qred_correct; ring.
Qed.

Lemma record_defined_iff_window_full_witness :
  exists tbl f, regress Samples.gap_df 50 = Ok tbl /\ In f tbl /\
                undefined f = true /\ residual f = NaN.
Proof.
  destruct (regress Samples.gap_df 50) as [tbl|] eqn:E;
    [|vm_compute in E; discriminate].
  assert (Hin : In (mkFitted (mkRow Samples.late 49 2401) NaN NaN NaN NaN) tbl).
  { vm_compute in E. inversion E. do 49 right. left. reflexivity. }
  destruct (record_defined_iff_window_full Samples.gap_df 50 tbl _ E Hin)
    as (_ & Hnan & _).
  exists tbl, (mkFitted (mkRow Samples.late 49 2401) NaN NaN NaN NaN).
  split; [reflexivity|]. split; [exact Hin|]. split; [reflexivity|].
  apply Hnan. reflexivity.
Defined.

End RecordExtras.
